(** * nullus: the task store of [src/nullus/todo.py]

    A shallow embedding of the task table, of the polars expressions the
    program applies to it, and of the commands that load, change and save
    it, followed by the properties of the store.

    Conventions.
    - The polars [DataFrame] of tasks is a [list Task], one record per row,
      in row order.  The nine columns are those of [SCHEMA].
    - [is_visible], [is_pin], [id] and [status] hold no nulls: every value
      the program writes to them is a literal or a row index.  The three
      [Date] columns are nullable ([option Date]).
    - Text is a [string] of bytes, in UTF-8 where it is not ASCII.
    - Library behaviour is the documented polars behaviour: an [Enum] orders
      its categories as they are listed; [sort] places nulls first unless
      [nulls_last] is given; [when(a, b)] is the conjunction of [a] and [b];
      [str.contains] reads its argument as a regular expression.
    - What the libraries do beyond that is a parameter, [lib : Library]:
      which texts polars casts to a date, how text that is not ASCII is
      lower-cased, and what the regular expression engine does outside the
      patterns interpreted here.  Every property holds for every such
      library. *)

From Stdlib Require Import ZArith List Bool String Ascii Lia.
From Stdlib Require Import Permutation Sorted DecimalString Finite.
Import ListNotations.

Local Open Scope string_scope.
Local Open Scope Z_scope.

(** ** Data model *)

(** [pl.Enum(["DONE", "TODO"])]: the categories in their declared order,
    which is also their sort order. *)
Inductive Status : Type := DONE | TODO.

Record Date : Type := mkDate { year : Z; month : Z; day : Z }.

Record Datetime : Type := mkDatetime
  { on_date : Date; hour : Z; minute : Z; second : Z; microsecond : Z }.

Record Task : Type := mkTask
  { id : Z;
    status : Status;
    desc : string;
    scheduled : option Date;
    deadline : option Date;
    created : Datetime;
    is_visible : bool;
    is_pin : bool;
    done_date : option Date }.

(** A row once [.drop("id")] has removed the first column. *)
Record Row : Type := mkRow
  { r_status : Status;
    r_desc : string;
    r_scheduled : option Date;
    r_deadline : option Date;
    r_created : Datetime;
    r_is_visible : bool;
    r_is_pin : bool;
    r_done_date : option Date }.

Inductive column : Type :=
  | c_id | c_status | c_desc | c_scheduled | c_deadline
  | c_created | c_is_visible | c_is_pin | c_done_date.

(** [SCHEMA], in column order. *)
Definition SCHEMA : list column :=
  [c_id; c_status; c_desc; c_scheduled; c_deadline;
   c_created; c_is_visible; c_is_pin; c_done_date].

Definition Status_eqb (a b : Status) : bool :=
  match a, b with
  | DONE, DONE | TODO, TODO => true
  | _, _ => false
  end.

(** Column updates, as [with_columns(... .alias(col))] performs them. *)
Definition set_status (v : Status) (t : Task) : Task :=
  mkTask (id t) v (desc t) (scheduled t) (deadline t) (created t)
         (is_visible t) (is_pin t) (done_date t).

Definition set_scheduled (v : option Date) (t : Task) : Task :=
  mkTask (id t) (status t) (desc t) v (deadline t) (created t)
         (is_visible t) (is_pin t) (done_date t).

Definition set_deadline_col (v : option Date) (t : Task) : Task :=
  mkTask (id t) (status t) (desc t) (scheduled t) v (created t)
         (is_visible t) (is_pin t) (done_date t).

Definition set_is_visible (v : bool) (t : Task) : Task :=
  mkTask (id t) (status t) (desc t) (scheduled t) (deadline t) (created t)
         v (is_pin t) (done_date t).

Definition set_is_pin (v : bool) (t : Task) : Task :=
  mkTask (id t) (status t) (desc t) (scheduled t) (deadline t) (created t)
         (is_visible t) v (done_date t).

Definition set_done_date (v : option Date) (t : Task) : Task :=
  mkTask (id t) (status t) (desc t) (scheduled t) (deadline t) (created t)
         (is_visible t) (is_pin t) v.

(** [pl.col("id").is_in(task_ids)] *)
Definition is_in (x : Z) (task_ids : list Z) : bool :=
  existsb (Z.eqb x) task_ids.

(** ** Orders on cells *)

Definition Status_index (s : Status) : Z :=
  match s with DONE => 0 | TODO => 1 end.

Definition Status_compare (a b : Status) : comparison :=
  Z.compare (Status_index a) (Status_index b).

Definition bool_compare (a b : bool) : comparison :=
  match a, b with
  | false, true => Lt
  | true, false => Gt
  | _, _ => Eq
  end.

Definition lex (c : comparison) (rest : comparison) : comparison :=
  match c with Eq => rest | _ => c end.

Definition Date_compare (a b : Date) : comparison :=
  lex (Z.compare (year a) (year b))
      (lex (Z.compare (month a) (month b)) (Z.compare (day a) (day b))).

Definition Datetime_compare (a b : Datetime) : comparison :=
  lex (Date_compare (on_date a) (on_date b))
      (lex (Z.compare (hour a) (hour b))
           (lex (Z.compare (minute a) (minute b))
                (lex (Z.compare (second a) (second b))
                     (Z.compare (microsecond a) (microsecond b))))).

(** One sort column.  [descending] reverses the order of the values; a
    null comes first either way ([nulls_last] is left at its default). *)
Definition directed (descending : bool) (c : comparison) : comparison :=
  if descending then CompOpp c else c.

Definition nullable_compare {A : Type} (cmp : A -> A -> comparison)
    (descending : bool) (x y : option A) : comparison :=
  match x, y with
  | None, None => Eq
  | None, Some _ => Lt
  | Some _, None => Gt
  | Some a, Some b => directed descending (cmp a b)
  end.

Definition column_compare (c : column) (descending : bool) (a b : Task)
  : comparison :=
  match c with
  | c_id => directed descending (Z.compare (id a) (id b))
  | c_status => directed descending (Status_compare (status a) (status b))
  | c_desc => directed descending (String.compare (desc a) (desc b))
  | c_scheduled =>
      nullable_compare Date_compare descending (scheduled a) (scheduled b)
  | c_deadline =>
      nullable_compare Date_compare descending (deadline a) (deadline b)
  | c_created =>
      directed descending (Datetime_compare (created a) (created b))
  | c_is_visible =>
      directed descending (bool_compare (is_visible a) (is_visible b))
  | c_is_pin => directed descending (bool_compare (is_pin a) (is_pin b))
  | c_done_date =>
      nullable_compare Date_compare descending (done_date a) (done_date b)
  end.

(** [df.sort(by, descending=...)]: the rows are compared column by
    column, the first column that tells them apart decides. *)
Fixpoint rows_compare (by_cols : list column) (descending : list bool)
    (a b : Task) : comparison :=
  match by_cols, descending with
  | c :: by_cols', d :: descending' =>
      lex (column_compare c d a b) (rows_compare by_cols' descending' a b)
  | _, _ => Eq
  end.

Definition comes_first (cmp : Task -> Task -> comparison) (a b : Task) : bool :=
  match cmp a b with Gt => false | _ => true end.

Section Sorting.
Variable leb : Task -> Task -> bool.

Fixpoint insert_sorted (t : Task) (rows : list Task) : list Task :=
  match rows with
  | [] => [t]
  | r :: rows' =>
      if leb t r then t :: r :: rows' else r :: insert_sorted t rows'
  end.

Fixpoint sort_rows (rows : list Task) : list Task :=
  match rows with
  | [] => []
  | t :: rows' => insert_sorted t (sort_rows rows')
  end.
End Sorting.

(** [DataFrame.sort].  Rows that compare equal keep their relative order
    here; polars leaves their order open ([maintain_order] is not set), and
    nothing below depends on it. *)
Definition df_sort (by_cols : list column) (descending : list bool)
    (tasks : list Task) : list Task :=
  sort_rows (comes_first (rows_compare by_cols descending)) tasks.

(** [.drop("id")] *)
Definition drop_id (t : Task) : Row :=
  mkRow (status t) (desc t) (scheduled t) (deadline t) (created t)
        (is_visible t) (is_pin t) (done_date t).

Definition with_id (i : Z) (r : Row) : Task :=
  mkTask i (r_status r) (r_desc r) (r_scheduled r) (r_deadline r)
         (r_created r) (r_is_visible r) (r_is_pin r) (r_done_date r).

(** [.with_row_index("id", offset=...)]: a new first column counting the
    rows from [offset]. *)
Fixpoint with_row_index (offset : Z) (rows : list Row) : list Task :=
  match rows with
  | [] => []
  | r :: rows' => with_id offset r :: with_row_index (offset + 1) rows'
  end.

Definition reindex (tasks : list Task) : list Task :=
  with_row_index 1
    (map drop_id
       (df_sort [c_is_visible; c_is_pin; c_status; c_scheduled; c_deadline]
                [true; true; true; false; false] tasks)).

(** ** Text: casts to [pl.String], lower-casing, pattern matching *)

Definition digits (z : Z) : string := NilZero.string_of_int (Z.to_int z).

Fixpoint zeros (n : nat) : string :=
  match n with
  | O => ""
  | S k => String "0" (zeros k)
  end.

Definition zero_pad (width : nat) (z : Z) : string :=
  zeros (width - String.length (digits z))%nat ++ digits z.

Definition Date_to_string (d : Date) : string :=
  zero_pad 4 (year d) ++ "-" ++ zero_pad 2 (month d) ++ "-"
    ++ zero_pad 2 (day d).

(** A [Datetime] in microseconds prints its six fractional digits. *)
Definition Datetime_to_string (d : Datetime) : string :=
  Date_to_string (on_date d) ++ " " ++ zero_pad 2 (hour d) ++ ":"
    ++ zero_pad 2 (minute d) ++ ":" ++ zero_pad 2 (second d) ++ "."
    ++ zero_pad 6 (microsecond d).

Definition Status_to_string (s : Status) : string :=
  match s with DONE => "DONE" | TODO => "TODO" end.

Definition bool_to_string (b : bool) : string :=
  if b then "true" else "false".

(** [pl.col(c).cast(pl.String)] on one row; [None] is a null cell. *)
Definition cast_String (c : column) (t : Task) : option string :=
  match c with
  | c_id => Some (digits (id t))
  | c_status => Some (Status_to_string (status t))
  | c_desc => Some (desc t)
  | c_scheduled => option_map Date_to_string (scheduled t)
  | c_deadline => option_map Date_to_string (deadline t)
  | c_created => Some (Datetime_to_string (created t))
  | c_is_visible => Some (bool_to_string (is_visible t))
  | c_is_pin => Some (bool_to_string (is_pin t))
  | c_done_date => option_map Date_to_string (done_date t)
  end.

(** [pl.concat_str(..., ignore_nulls=True)] on one row. *)
Fixpoint concat_str (cells : list (option string)) : string :=
  match cells with
  | [] => ""
  | Some s :: cells' => s ++ concat_str cells'
  | None :: cells' => concat_str cells'
  end.

(** [pl.concat_str(pl.all().cast(pl.String), ignore_nulls=True)] *)
Definition row_text (t : Task) : string :=
  concat_str (map (fun c => cast_String c t) SCHEMA).

Definition lower_ascii (c : ascii) : ascii :=
  let n := N_of_ascii c in
  if (65 <=? n)%N && (n <=? 90)%N then ascii_of_N (n + 32) else c.

(** Lower-casing of ASCII text: the letters A-Z. *)
Fixpoint ascii_lowercase (s : string) : string :=
  match s with
  | EmptyString => EmptyString
  | String c s' => String (lower_ascii c) (ascii_lowercase s')
  end.

Fixpoint is_ascii (s : string) : bool :=
  match s with
  | EmptyString => true
  | String c s' => (N_of_ascii c <? 128)%N && is_ascii s'
  end.

(** The patterns interpreted here: a sequence of literal characters and
    dots.  A dot stands for any character but a line feed; in ASCII text a
    character is a byte. *)
Inductive atom : Type := Lit (c : ascii) | AnyChar.

(** The characters with a special meaning in a pattern, by code:
    backslash, caret, dollar, star, plus, question mark, the three pairs of
    brackets and the bar.  (The dot is handled apart.) *)
Definition is_meta (c : ascii) : bool :=
  existsb (N.eqb (N_of_ascii c))
          [92; 94; 36; 42; 43; 63; 40; 41; 91; 93; 123; 125; 124]%N.

Definition is_dot (c : ascii) : bool := N.eqb (N_of_ascii c) 46.

(** [None]: the pattern uses syntax outside the interpreted fragment. *)
Fixpoint parse_regex (s : string) : option (list atom) :=
  match s with
  | EmptyString => Some []
  | String c s' =>
      if is_meta c then None
      else
        match parse_regex s' with
        | None => None
        | Some p => Some ((if is_dot c then AnyChar else Lit c) :: p)
        end
  end.

Definition atom_matches (a : atom) (c : ascii) : bool :=
  match a with
  | Lit x => Ascii.eqb x c
  | AnyChar => negb (N.eqb (N_of_ascii c) 10)
  end.

Fixpoint match_here (p : list atom) (s : string) : bool :=
  match p with
  | [] => true
  | a :: p' =>
      match s with
      | EmptyString => false
      | String c s' => atom_matches a c && match_here p' s'
      end
  end.

(** The pattern matches somewhere in [s]. *)
Fixpoint str_contains (p : list atom) (s : string) : bool :=
  match_here p s
  || match s with
     | EmptyString => false
     | String _ s' => str_contains p s'
     end.

Definition has_dot (p : list atom) : bool :=
  existsb (fun a => match a with AnyChar => true | Lit _ => false end) p.

(** ** Dates from text *)

Definition digit_value (c : ascii) : option Z :=
  let n := N_of_ascii c in
  if (48 <=? n)%N && (n <=? 57)%N then Some (Z.of_N n - 48) else None.

Fixpoint number_of (cs : list ascii) (acc : Z) : option Z :=
  match cs with
  | [] => Some acc
  | c :: cs' =>
      match digit_value c with
      | Some d => number_of cs' (10 * acc + d)
      | None => None
      end
  end.

Definition is_leap (y : Z) : bool :=
  ((y mod 4 =? 0) && negb (y mod 100 =? 0)) || (y mod 400 =? 0).

Definition days_in_month (y m : Z) : Z :=
  if m =? 2 then (if is_leap y then 29 else 28)
  else if (m =? 4) || (m =? 6) || (m =? 9) || (m =? 11) then 30
  else 31.

Definition is_dash (c : ascii) : bool := N.eqb (N_of_ascii c) 45.

(** Reading a date in the form the command line asks for, YYYY-MM-DD. *)
Definition iso_date (s : string) : option Date :=
  match list_ascii_of_string s with
  | [y1; y2; y3; y4; s1; m1; m2; s2; d1; d2] =>
      match number_of [y1; y2; y3; y4] 0, number_of [m1; m2] 0,
            number_of [d1; d2] 0 with
      | Some y, Some m, Some d =>
          if is_dash s1 && is_dash s2 && (1 <=? m) && (m <=? 12)
             && (1 <=? d) && (d <=? days_in_month y m)
          then Some (mkDate y m d) else None
      | _, _, _ => None
      end
  | _ => None
  end.

(** ** The libraries *)

(** What polars, the regular expression engine and Python do where this
    development does not spell it out:
    - [lib_cast_Date]: [pl.lit(text).cast(pl.Date)], [None] when the strict
      cast raises;
    - [lib_lower]: [str.lower()] on text that is not ASCII;
    - [lib_to_lowercase]: [.str.to_lowercase()] on text that is not ASCII;
    - [lib_regex_accepts]: whether [.str.contains] takes the pattern (it
      raises otherwise);
    - [lib_regex_is_match]: whether the pattern matches somewhere in the
      text. *)
Record Library : Type := mkLibrary
  { lib_cast_Date : string -> option Date;
    lib_lower : string -> string;
    lib_to_lowercase : string -> string;
    lib_regex_accepts : string -> bool;
    lib_regex_is_match : string -> string -> bool }.

(** One library to run the commands on samples: it casts the dates written
    YYYY-MM-DD, leaves text that is not ASCII as it is, and refuses every
    pattern that is not interpreted here. *)
Definition sample_library : Library :=
  mkLibrary iso_date (fun s => s) (fun s => s) (fun _ => false)
            (fun _ _ => false).

(** ** The world of one command: the task file, the clock, the terminal *)

(** What [print] receives.  A table is given by the columns selected for
    display and the rows in display order; laying the cells out is the
    printer's work. *)
Inductive Printed : Type :=
  | Table (show_cols : list string) (rows : list Task)
  | Frame (tasks : list Task)
  | Text (s : string).

(** [file] is the content of [TASKS_FILE]: [None] when the file is missing
    or holds no data, the cases in which reading it raises
    [FileNotFoundError] or [NoDataError]. *)
Record World : Type := mkWorld
  { file : option (list Task);
    clock : Datetime;
    stdout : list Printed }.

Inductive Exn : Type :=
  | ComputeError  (* polars refuses a date text or a pattern *)
  | ValueError    (* a stored date has no Python value *)
  | TypeError.    (* an id does not fit the Int64 column *)

Inductive result (A : Type) : Type :=
  | Ok (a : A)
  | Raise (e : Exn).
Arguments Ok {A} a.
Arguments Raise {A} e.

Definition M (A : Type) : Type := World -> result A * World.

Definition ret {A : Type} (a : A) : M A := fun w => (Ok a, w).

Definition bind {A B : Type} (m : M A) (k : A -> M B) : M B :=
  fun w =>
    match m w with
    | (Ok a, w') => k a w'
    | (Raise e, w') => (Raise e, w')
    end.

Definition raise {A : Type} (e : Exn) : M A := fun w => (Raise e, w).

Notation "x <- m ;; k" := (bind m (fun x => k))
  (at level 61, m at next level, right associativity).
Notation "m ;;; k" := (bind m (fun _ => k))
  (at level 61, right associativity).

Definition load_tasks : M (list Task) :=
  fun w =>
    match file w with
    | Some tasks => (Ok tasks, w)
    | None => (Ok [], w)
    end.

Definition save_tasks (tasks : list Task) : M unit :=
  fun w => (Ok tt, mkWorld (Some tasks) (clock w) (stdout w)).

(** [datetime.now()] *)
Definition now : M Datetime := fun w => (Ok (clock w), w).

Definition print (p : Printed) : M unit :=
  fun w => (Ok tt, mkWorld (file w) (clock w) (stdout w ++ [p])%list).

(** The table the file holds after a command. *)
Definition stored (w : World) : list Task :=
  match file w with
  | Some tasks => tasks
  | None => []
  end.

(** ** Python values of cells *)

Definition not_null {A : Type} (x : option A) : bool :=
  match x with Some _ => true | None => false end.

(** A [datetime.date] has a year from 1 to 9999; a null cell is [None]. *)
Definition has_python_value (cell : option Date) : bool :=
  match cell with
  | None => true
  | Some d => (1 <=? year d) && (year d <=? 9999)
  end.

(** Iterating a [Series] turns it into Python values 25000 cells at a
    time. *)
Definition buffer_size : nat := Z.to_nat 25000.

(** [any(series)] on a date column, read [buffer] cells at a time: turning
    a buffer into Python values raises if one of its dates has none;
    otherwise a date in it makes the answer true, and without one the next
    buffer is read.  Every round reads at least one cell, so as many rounds
    as there are cells are enough. *)
Fixpoint any_buffered (buffer rounds : nat) (cells : list (option Date))
  : result bool :=
  match rounds, cells with
  | _, [] => Ok false
  | O, _ :: _ => Ok false
  | S rounds', _ :: _ =>
      if forallb has_python_value (firstn buffer cells) then
        if existsb not_null (firstn buffer cells) then Ok true
        else any_buffered buffer rounds' (skipn buffer cells)
      else Raise ValueError
  end.

Definition any_dates (cells : list (option Date)) : result bool :=
  any_buffered buffer_size (List.length cells) cells.

Definition lift {A : Type} (r : result A) : M A := fun w => (r, w).

(** The largest id an [Int64] column holds. *)
Definition Int64_max : Z := 9223372036854775807.

(** ** The program, over any library *)

Section Program.
Variable lib : Library.

Definition cast_Date (s : string) : option Date := lib_cast_Date lib s.

(** [str.lower()] *)
Definition lower (s : string) : string :=
  if is_ascii s then ascii_lowercase s else lib_lower lib s.

(** [.str.to_lowercase()] *)
Definition to_lowercase (s : string) : string :=
  if is_ascii s then ascii_lowercase s else lib_to_lowercase lib s.

(** Whether [.str.contains(pattern)] takes the pattern.  A sequence of
    literal characters and dots is a pattern. *)
Definition regex_accepted (pattern : string) : bool :=
  match parse_regex pattern with
  | Some _ => true
  | None => lib_regex_accepts lib pattern
  end.

(** [.str.contains(pattern)] on one text.  A pattern of literal characters
    is searched as written; one with dots is interpreted here in ASCII
    text, where a character is a byte. *)
Definition is_match (pattern s : string) : bool :=
  match parse_regex pattern with
  | Some p =>
      if negb (has_dot p) || is_ascii s then str_contains p s
      else lib_regex_is_match lib pattern s
  | None => lib_regex_is_match lib pattern s
  end.

(** ** The commands *)

Definition is_empty {A : Type} (l : list A) : bool :=
  match l with [] => true | _ => false end.

(** The id [add_task] gives the new row before renumbering. *)
Definition next_id (tasks : list Task) : Z :=
  match tasks with
  | t :: rest => fold_left Z.max (map id rest) (id t) + 1
  | [] => 1
  end.

(** Building the new row raises when its id does not fit the [Int64]
    column; nothing is stored then. *)
Definition add_task (task : string) : M unit :=
  tasks <- load_tasks ;;
  let task_id := next_id tasks in
  created_at <- now ;;
  if task_id <=? Int64_max then
    let task :=
      [mkTask task_id TODO task None None created_at true false None] in
    let tasks := (tasks ++ task)%list in
    let tasks := reindex tasks in
    save_tasks tasks
  else raise TypeError.

Definition pin_task (task_ids : list Z) : M unit :=
  tasks <- load_tasks ;;
  let tasks :=
    map (fun t =>
           set_is_pin
             (if is_in (id t) task_ids && is_pin t then false
              else if is_in (id t) task_ids && negb (is_pin t) then true
              else is_pin t) t) tasks in
  save_tasks tasks.

Definition mark_done (task_ids : list Z) : M unit :=
  tasks <- load_tasks ;;
  today <- now ;;
  let tasks :=
    map (fun t =>
           set_done_date
             (if is_in (id t) task_ids && Status_eqb (status t) DONE
              then None
              else if is_in (id t) task_ids
                      && negb (Status_eqb (status t) DONE)
              then Some (on_date today)
              else done_date t) t) tasks in
  let tasks :=
    map (fun t =>
           set_status
             (if is_in (id t) task_ids && Status_eqb (status t) DONE
              then TODO
              else if is_in (id t) task_ids
                      && negb (Status_eqb (status t) DONE)
              then DONE
              else status t) t) tasks in
  let tasks :=
    map (fun t =>
           set_is_visible
             (if negb (Status_eqb (status t) DONE) then true
              else is_visible t) t) tasks in
  save_tasks tasks.

Definition schedule_task (date : string) (task_ids : list Z) : M unit :=
  tasks <- load_tasks ;;
  match cast_Date date with
  | None => raise ComputeError
  | Some d =>
      let tasks :=
        map (fun t =>
               set_scheduled
                 (if is_in (id t) task_ids then Some d else scheduled t) t)
            tasks in
      save_tasks tasks
  end.

Definition set_deadline (date : string) (task_ids : list Z) : M unit :=
  tasks <- load_tasks ;;
  match cast_Date date with
  | None => raise ComputeError
  | Some d =>
      let tasks :=
        map (fun t =>
               set_deadline_col
                 (if is_in (id t) task_ids then Some d else deadline t) t)
            tasks in
      save_tasks tasks
  end.

Definition prune_done : M unit :=
  tasks <- load_tasks ;;
  let tasks :=
    map (fun t =>
           set_is_visible
             (if Status_eqb (status t) DONE then false else is_visible t) t)
        tasks in
  let tasks := reindex tasks in
  save_tasks tasks.

Definition dump_tasks : M unit :=
  tasks <- load_tasks ;;
  print (Frame tasks).

(** The rows [list_tasks] keeps: the visible ones, and of these, when a
    non-empty pattern is given, the ones whose text it matches. *)
Definition rows_to_print (regex : option string) (tasks : list Task)
  : result (list Task) :=
  let task_to_print := filter is_visible tasks in
  match regex with
  | None | Some EmptyString => Ok task_to_print
  | Some regex =>
      let regex := lower regex in
      if regex_accepted regex then
        Ok (filter (fun t => is_match regex (to_lowercase (row_text t)))
                   task_to_print)
      else Raise ComputeError
  end.

Definition list_tasks (regex : option string) : M unit :=
  tasks <- load_tasks ;;
  task_to_print <- lift (rows_to_print regex tasks) ;;
  if negb (is_empty task_to_print) then
    let '(sort_cols, sort_order, show_cols) :=
      if existsb is_pin task_to_print
      then ([c_is_pin; c_status; c_scheduled; c_deadline],
            [true; true; false; false],
            ["pin"; "id"; "status"; "desc"])
      else ([c_status; c_scheduled; c_deadline],
            [true; false; false],
            ["id"; "status"; "desc"]) in
    any_scheduled <- lift (any_dates (map scheduled task_to_print)) ;;
    let show_cols :=
      if any_scheduled
      then (show_cols ++ ["scheduled"])%list else show_cols in
    any_deadline <- lift (any_dates (map deadline task_to_print)) ;;
    let show_cols :=
      if any_deadline
      then (show_cols ++ ["deadline"])%list else show_cols in
    print (Table show_cols (df_sort sort_cols sort_order task_to_print))
  else print (Text "No active tasks found.").

(** The command line: one flag per invocation. *)
Inductive Command : Type :=
  | cmd_list (regex : option string)
  | cmd_add (tasks : list string)
  | cmd_pin (task_ids : list Z)
  | cmd_done (task_ids : list Z)
  | cmd_schedule (date : string) (task_ids : list Z)
  | cmd_deadline (date : string) (task_ids : list Z)
  | cmd_prune
  | cmd_dump.

Fixpoint for_each {A : Type} (xs : list A) (body : A -> M unit) : M unit :=
  match xs with
  | [] => ret tt
  | x :: xs' => body x ;;; for_each xs' body
  end.

Definition main (args : Command) : M unit :=
  match args with
  | cmd_list regex => list_tasks regex
  | cmd_add tasks => for_each tasks add_task
  | cmd_pin task_ids => pin_task task_ids
  | cmd_done task_ids => mark_done task_ids
  | cmd_schedule date task_ids => schedule_task date task_ids
  | cmd_deadline date task_ids => set_deadline date task_ids
  | cmd_prune => prune_done
  | cmd_dump => dump_tasks
  end.

(** The world a command leaves behind. *)
Definition exec {A : Type} (m : M A) (w : World) : World := snd (m w).

(** The same world at a later time. *)
Definition set_clock (c : Datetime) (w : World) : World :=
  mkWorld (file w) c (stdout w).

(** The four commands that change cells of the rows named by their ids. *)
Inductive Mutation : Type :=
  | m_pin
  | m_done
  | m_schedule (date : string)
  | m_deadline (date : string).

Definition mutate (m : Mutation) (task_ids : list Z) : Command :=
  match m with
  | m_pin => cmd_pin task_ids
  | m_done => cmd_done task_ids
  | m_schedule date => cmd_schedule date task_ids
  | m_deadline date => cmd_deadline date task_ids
  end.

Definition date_accepted (m : Mutation) : Prop :=
  match m with
  | m_schedule date | m_deadline date => cast_Date date <> None
  | m_pin | m_done => True
  end.

(** ** Properties of a stored table *)

(** The ids are exactly 1, ..., N, each once, N the number of rows. *)
Definition ids_dense (tasks : list Task) : Prop :=
  NoDup (map id tasks)
  /\ forall k : Z, In k (map id tasks) <-> 1 <= k <= Z.of_nat (List.length tasks).

Definition done_date_consistent (tasks : list Task) : Prop :=
  Forall (fun t => done_date t <> None <-> status t = DONE) tasks.

(** The order of the rows after [reindex], written out: [a] goes strictly
    before [b]. *)
Definition Date_lt (a b : Date) : Prop :=
  year a < year b
  \/ (year a = year b
      /\ (month a < month b \/ (month a = month b /\ day a < day b))).

Definition nulls_first_lt (x y : option Date) : Prop :=
  match x, y with
  | None, Some _ => True
  | Some a, Some b => Date_lt a b
  | _, None => False
  end.

Inductive strictly_before (a b : Task) : Prop :=
  | before_by_visible :
      is_visible a = true -> is_visible b = false -> strictly_before a b
  | before_by_pin :
      is_visible a = is_visible b ->
      is_pin a = true -> is_pin b = false -> strictly_before a b
  | before_by_status :
      is_visible a = is_visible b -> is_pin a = is_pin b ->
      status a = TODO -> status b = DONE -> strictly_before a b
  | before_by_scheduled :
      is_visible a = is_visible b -> is_pin a = is_pin b ->
      status a = status b ->
      nulls_first_lt (scheduled a) (scheduled b) -> strictly_before a b
  | before_by_deadline :
      is_visible a = is_visible b -> is_pin a = is_pin b ->
      status a = status b -> scheduled a = scheduled b ->
      nulls_first_lt (deadline a) (deadline b) -> strictly_before a b.

(** The order as the specification words it: visible first, pinned first,
    DONE before TODO, then the scheduled date and the deadline, ascending
    with the nulls last. *)
Definition nulls_last_compare (x y : option Date) : comparison :=
  match x, y with
  | None, None => Eq
  | None, Some _ => Gt
  | Some _, None => Lt
  | Some a, Some b => Date_compare a b
  end.

Definition done_first_compare (a b : Status) : comparison :=
  match a, b with
  | DONE, TODO => Lt
  | TODO, DONE => Gt
  | _, _ => Eq
  end.

Definition claimed_compare (a b : Task) : comparison :=
  lex (CompOpp (bool_compare (is_visible a) (is_visible b)))
      (lex (CompOpp (bool_compare (is_pin a) (is_pin b)))
           (lex (done_first_compare (status a) (status b))
                (lex (nulls_last_compare (scheduled a) (scheduled b))
                     (nulls_last_compare (deadline a) (deadline b))))).

(** A comparison that behaves as a total preorder. *)
Record orderly {A : Type} (cmp : A -> A -> comparison) : Prop :=
  { orderly_sym : forall a b, cmp b a = CompOpp (cmp a b);
    orderly_eq : forall a b c, cmp a b = Eq -> cmp a c = cmp b c;
    orderly_lt : forall a b c, cmp a b = Lt -> cmp b c = Lt -> cmp a c = Lt }.

(** ** Plain text search, as the specification words the filter *)

Definition Substring (needle hay : string) : Prop :=
  exists pre post : string, hay = pre ++ needle ++ post.

Fixpoint occurs_in (needle hay : string) : bool :=
  String.prefix needle hay
  || match hay with
     | EmptyString => false
     | String _ hay' => occurs_in needle hay'
     end.

(** The rows a plain text search keeps: the visible rows in whose text,
    letter case set aside, [text] occurs. *)
Definition rows_matching_text (text : string) (tasks : list Task)
  : list Task :=
  filter (fun t =>
            is_visible t
            && occurs_in (lower text) (to_lowercase (row_text t)))
         tasks.

(** A text in which no character has a special meaning as a pattern. *)
Fixpoint plain_text (s : string) : bool :=
  match s with
  | EmptyString => true
  | String c s' => negb (is_meta c) && negb (is_dot c) && plain_text s'
  end.

(** ** Sample tables *)

Definition at_noon (d : Date) : Datetime := mkDatetime d 12 0 0 0.

Definition new_year : Date := mkDate 2024 1 1.
Definition midsummer : Date := mkDate 2024 6 21.

Definition buy_milk : Task :=
  mkTask 1 TODO "Buy milk" None None (at_noon new_year) true false None.

Definition call_bank : Task :=
  mkTask 2 TODO "Call bank" None None (at_noon new_year) true false None.

Definition milk_world : World :=
  mkWorld (Some [buy_milk; call_bank]) (at_noon midsummer) [].

(** A finished task next to an open one, and a dated task next to an
    undated one. *)
Definition finished : Task :=
  mkTask 1 DONE "file taxes" None None (at_noon new_year) true false
         (Some new_year).

Definition open_task : Task :=
  mkTask 2 TODO "water plants" None None (at_noon new_year) true false None.

Definition dated : Task :=
  mkTask 1 TODO "pay rent" (Some midsummer) None (at_noon new_year)
         true false None.

Definition undated : Task :=
  mkTask 2 TODO "read book" None None (at_noon new_year) true false None.

Definition finished_world : World :=
  mkWorld (Some [finished; open_task]) (at_noon midsummer) [].

(** An open task that is hidden: the file can hold one, no command
    produces it. *)
Definition hidden_open : Task :=
  mkTask 2 TODO "archived idea" None None (at_noon new_year) false false None.

Definition hidden_world : World :=
  mkWorld (Some [buy_milk; hidden_open]) (at_noon midsummer) [].

(** ** Further properties of a stored table and of a listing *)

(** Every open task is visible. *)
Definition todo_visible (tasks : list Task) : Prop :=
  Forall (fun t => status t = TODO -> is_visible t = true) tasks.

(** A row with the cells a mutation may write blanked out: what is left
    is what the mutation must not touch. *)
Definition outside (m : Mutation) (t : Task) : Task :=
  match m with
  | m_pin => set_is_pin false t
  | m_done => set_status DONE (set_done_date None (set_is_visible true t))
  | m_schedule _ => set_scheduled None t
  | m_deadline _ => set_deadline_col None t
  end.

(** The order of the rows in a listing, written out: [a] is shown
    strictly before [b]. *)
Inductive listed_before (a b : Task) : Prop :=
  | listed_by_pin :
      is_pin a = true -> is_pin b = false -> listed_before a b
  | listed_by_status :
      is_pin a = is_pin b ->
      status a = TODO -> status b = DONE -> listed_before a b
  | listed_by_scheduled :
      is_pin a = is_pin b -> status a = status b ->
      nulls_first_lt (scheduled a) (scheduled b) -> listed_before a b
  | listed_by_deadline :
      is_pin a = is_pin b -> status a = status b ->
      scheduled a = scheduled b ->
      nulls_first_lt (deadline a) (deadline b) -> listed_before a b.

(** Every stored date has a Python value. *)
Definition dates_have_python_values (tasks : list Task) : Prop :=
  Forall (fun t =>
            has_python_value (scheduled t) = true
            /\ has_python_value (deadline t) = true) tasks.

(** A command that calls one function of the program once: every command
    but the add flag with several texts, which calls [add_task] for each. *)
Definition one_call (args : Command) : Prop :=
  match args with
  | cmd_add tasks => (List.length tasks <= 1)%nat
  | _ => True
  end.

(** * Properties *)

(** ** Sorting *)

Section SortingFacts.
Variable leb : Task -> Task -> bool.

Lemma insert_sorted_perm (t : Task) (rows : list Task) :
  Permutation (insert_sorted leb t rows) (t :: rows).
Proof.
  induction rows as [|r rows IH]; simpl.
  - apply Permutation_refl.
  - destruct (leb t r).
    + apply Permutation_refl.
    + eapply perm_trans; [apply perm_skip, IH | apply perm_swap].
Qed.

Lemma sort_rows_perm (rows : list Task) :
  Permutation (sort_rows leb rows) rows.
Proof.
  induction rows as [|t rows IH]; simpl.
  - apply perm_nil.
  - eapply perm_trans; [apply insert_sorted_perm | apply perm_skip, IH].
Qed.

Hypothesis leb_total : forall a b, leb a b = false -> leb b a = true.
Hypothesis leb_trans :
  forall a b c, leb a b = true -> leb b c = true -> leb a c = true.

Lemma insert_sorted_sorted (t : Task) (rows : list Task) :
  StronglySorted (fun a b => leb a b = true) rows ->
  StronglySorted (fun a b => leb a b = true) (insert_sorted leb t rows).
Proof.
  induction rows as [|r rows IH]; simpl; intros Hs.
  - constructor; constructor.
  - inversion Hs as [|? ? Hrest Hall]; subst.
    destruct (leb t r) eqn:Htr.
    + constructor; [exact Hs|].
      constructor; [exact Htr|].
      eapply Forall_impl; [|exact Hall].
      intros c Hc. eapply leb_trans; [exact Htr | exact Hc].
    + constructor; [apply IH; exact Hrest|].
      eapply Permutation_Forall.
      * apply Permutation_sym, insert_sorted_perm.
      * constructor; [apply leb_total; exact Htr | exact Hall].
Qed.

Lemma sort_rows_sorted (rows : list Task) :
  StronglySorted (fun a b => leb a b = true) (sort_rows leb rows).
Proof.
  induction rows as [|t rows IH]; simpl.
  - constructor.
  - apply insert_sorted_sorted, IH.
Qed.
End SortingFacts.

(** ** Comparisons that are total preorders *)

Lemma orderly_Z : orderly Z.compare.
Proof.
  split.
  - intros a b. apply Z.compare_antisym.
  - intros a b c H. apply Z.compare_eq in H. now subst.
  - intros a b c. rewrite !Z.compare_lt_iff. lia.
Qed.

Lemma orderly_bool : orderly bool_compare.
Proof.
  split.
  - now intros [] [].
  - now intros [] [] [].
  - now intros [] [] [].
Qed.

Lemma orderly_on {A B : Type} (f : A -> B) (cmp : B -> B -> comparison) :
  orderly cmp -> orderly (fun a b => cmp (f a) (f b)).
Proof.
  intros [Hs He Hl]. split; intros; eauto.
Qed.

Lemma orderly_opp {A : Type} (cmp : A -> A -> comparison) :
  orderly cmp -> orderly (fun a b => CompOpp (cmp a b)).
Proof.
  intros [Hs He Hl]. split.
  - intros a b. now rewrite (Hs a b).
  - intros a b c H. f_equal. apply He.
    now destruct (cmp a b).
  - intros a b c Hab Hbc.
    assert (Hba : cmp b a = Lt) by (rewrite Hs; now destruct (cmp a b)).
    assert (Hcb : cmp c b = Lt) by (rewrite Hs; now destruct (cmp b c)).
    rewrite (Hs c a), (Hl c b a Hcb Hba). reflexivity.
Qed.

Lemma orderly_directed {A : Type} (cmp : A -> A -> comparison) (d : bool) :
  orderly cmp -> orderly (fun a b => directed d (cmp a b)).
Proof.
  destruct d; simpl.
  - apply orderly_opp.
  - intros [Hs He Hl]. now split.
Qed.

Lemma orderly_lex {A : Type} (c1 c2 : A -> A -> comparison) :
  orderly c1 -> orderly c2 -> orderly (fun a b => lex (c1 a b) (c2 a b)).
Proof.
  intros [Hs1 He1 Hl1] [Hs2 He2 Hl2]. split.
  - intros a b. rewrite (Hs1 a b), (Hs2 a b).
    now destruct (c1 a b).
  - intros a b c H.
    destruct (c1 a b) eqn:H1; simpl in H; try discriminate.
    rewrite (He1 a b c H1). destruct (c1 b c); simpl; auto.
  - intros a b c Hab Hbc.
    destruct (c1 a b) eqn:H1; simpl in Hab; try discriminate.
    + rewrite (He1 a b c H1).
      destruct (c1 b c) eqn:H2; simpl in *; try discriminate; eauto.
    + destruct (c1 b c) eqn:H2; simpl in Hbc; try discriminate.
      * assert (Hcb : c1 c b = Eq) by (rewrite Hs1, H2; reflexivity).
        assert (Hac : c1 c a = c1 b a) by (apply He1; exact Hcb).
        rewrite (Hs1 a c), (Hs1 a b), H1 in Hac.
        destruct (c1 a c); simpl in *; try discriminate; reflexivity.
      * rewrite (Hl1 a b c H1 H2). reflexivity.
Qed.

Lemma orderly_nullable {A : Type} (cmp : A -> A -> comparison) (d : bool) :
  orderly cmp -> orderly (nullable_compare cmp d).
Proof.
  intros H. pose proof (orderly_directed cmp d H) as [Hs He Hl].
  split.
  - intros [a|] [b|]; simpl; auto.
  - intros [a|] [b|] [c|]; simpl; auto; try discriminate.
  - intros [a|] [b|] [c|]; simpl; eauto; try discriminate.
Qed.

Lemma orderly_Date : orderly Date_compare.
Proof.
  unfold Date_compare.
  apply (orderly_lex (fun a b => Z.compare (year a) (year b))).
  - apply (orderly_on year), orderly_Z.
  - apply (orderly_lex (fun a b => Z.compare (month a) (month b))).
    + apply (orderly_on month), orderly_Z.
    + apply (orderly_on day), orderly_Z.
Qed.

Lemma orderly_Status : orderly Status_compare.
Proof. apply (orderly_on Status_index), orderly_Z. Qed.

Lemma orderly_const : orderly (fun _ _ : Task => Eq).
Proof. now split. Qed.

Lemma orderly_Datetime : orderly Datetime_compare.
Proof.
  unfold Datetime_compare.
  apply (orderly_lex (fun a b => Date_compare (on_date a) (on_date b))).
  - apply (orderly_on on_date), orderly_Date.
  - apply (orderly_lex (fun a b => Z.compare (hour a) (hour b))).
    + apply (orderly_on hour), orderly_Z.
    + apply (orderly_lex (fun a b => Z.compare (minute a) (minute b))).
      * apply (orderly_on minute), orderly_Z.
      * apply (orderly_lex (fun a b => Z.compare (second a) (second b))).
        -- apply (orderly_on second), orderly_Z.
        -- apply (orderly_on microsecond), orderly_Z.
Qed.

(** Every column but the free text is compared by a total preorder (the
    program sorts on none but these). *)
Lemma orderly_column (c : column) (d : bool) :
  c <> c_desc -> orderly (column_compare c d).
Proof.
  intros Hc. destruct c; simpl; try congruence.
  - apply (orderly_directed (fun a b => Z.compare (id a) (id b))).
    apply (orderly_on id), orderly_Z.
  - apply (orderly_directed
             (fun a b => Status_compare (status a) (status b))).
    apply (orderly_on status), orderly_Status.
  - apply (orderly_on scheduled), orderly_nullable, orderly_Date.
  - apply (orderly_on deadline), orderly_nullable, orderly_Date.
  - apply (orderly_directed
             (fun a b => Datetime_compare (created a) (created b))).
    apply (orderly_on created), orderly_Datetime.
  - apply (orderly_directed
             (fun a b => bool_compare (is_visible a) (is_visible b))).
    apply (orderly_on is_visible), orderly_bool.
  - apply (orderly_directed
             (fun a b => bool_compare (is_pin a) (is_pin b))).
    apply (orderly_on is_pin), orderly_bool.
  - apply (orderly_on done_date), orderly_nullable, orderly_Date.
Qed.

Lemma orderly_rows (by_cols : list column) :
  Forall (fun c => c <> c_desc) by_cols ->
  forall descending, orderly (rows_compare by_cols descending).
Proof.
  induction 1 as [|c by_cols Hc _ IH]; intros descending.
  - apply orderly_const.
  - destruct descending as [|d descending].
    + apply orderly_const.
    + apply (orderly_lex (column_compare c d)
                         (rows_compare by_cols descending)).
      * apply orderly_column, Hc.
      * apply IH.
Qed.

Lemma comes_first_total (cmp : Task -> Task -> comparison) :
  orderly cmp ->
  forall a b, comes_first cmp a b = false -> comes_first cmp b a = true.
Proof.
  intros [Hs _ _] a b. unfold comes_first. rewrite (Hs a b).
  now destruct (cmp a b).
Qed.

Lemma comes_first_trans (cmp : Task -> Task -> comparison) :
  orderly cmp ->
  forall a b c,
    comes_first cmp a b = true -> comes_first cmp b c = true ->
    comes_first cmp a c = true.
Proof.
  intros [Hs He Hl] a b c. unfold comes_first.
  destruct (cmp a b) eqn:Hab; try discriminate; intros _.
  - now rewrite (He a b c Hab).
  - destruct (cmp b c) eqn:Hbc; try discriminate; intros _.
    + assert (Hcb : cmp c b = Eq) by (rewrite Hs, Hbc; reflexivity).
      pose proof (He c b a Hcb) as Hca.
      rewrite (Hs a c), (Hs a b), Hab in Hca.
      now destruct (cmp a c).
    + now rewrite (Hl a b c Hab Hbc).
Qed.

Lemma df_sort_perm (by_cols : list column) (descending : list bool)
    (tasks : list Task) :
  Permutation (df_sort by_cols descending tasks) tasks.
Proof. apply sort_rows_perm. Qed.

Lemma df_sort_sorted (by_cols : list column) (descending : list bool)
    (tasks : list Task) :
  Forall (fun c => c <> c_desc) by_cols ->
  StronglySorted
    (fun a b => comes_first (rows_compare by_cols descending) a b = true)
    (df_sort by_cols descending tasks).
Proof.
  intros Hcols. unfold df_sort.
  pose proof (orderly_rows by_cols Hcols descending) as Ho.
  apply sort_rows_sorted.
  - apply comes_first_total, Ho.
  - apply comes_first_trans, Ho.
Qed.

Lemma StronglySorted_nth {A : Type} (R : A -> A -> Prop) (l : list A) :
  StronglySorted R l ->
  forall i j a b,
    (i < j)%nat -> nth_error l i = Some a -> nth_error l j = Some b ->
    R a b.
Proof.
  induction 1 as [|x l Hs IH Hall]; intros i j a b Hij Hi Hj.
  - destruct i; discriminate.
  - destruct j as [|j]; [lia|].
    destruct i as [|i]; simpl in Hi, Hj.
    + injection Hi as <-.
      rewrite Forall_forall in Hall. apply Hall.
      eapply nth_error_In, Hj.
    + apply (IH i j); auto. lia.
Qed.

(** ** Renumbering *)

Lemma drop_with_id (i : Z) (r : Row) : drop_id (with_id i r) = r.
Proof. now destruct r. Qed.

Lemma with_row_index_length (offset : Z) (rows : list Row) :
  List.length (with_row_index offset rows) = List.length rows.
Proof.
  revert offset. induction rows as [|r rows IH]; intros offset; simpl.
  - reflexivity.
  - now rewrite IH.
Qed.

Lemma with_row_index_ids (n : nat) (rows : list Row) :
  map id (with_row_index (Z.of_nat n) rows)
  = map Z.of_nat (seq n (List.length rows)).
Proof.
  revert n. induction rows as [|r rows IH]; intros n; simpl.
  - reflexivity.
  - f_equal. rewrite <- IH. do 2 f_equal. lia.
Qed.

Lemma with_row_index_rows (offset : Z) (rows : list Row) :
  map drop_id (with_row_index offset rows) = rows.
Proof.
  revert offset. induction rows as [|r rows IH]; intros offset; simpl.
  - reflexivity.
  - now rewrite drop_with_id, IH.
Qed.

Lemma with_row_index_nth (offset : Z) (rows : list Row) (i : nat) :
  nth_error (with_row_index offset rows) i
  = option_map (with_id (offset + Z.of_nat i)) (nth_error rows i).
Proof.
  revert offset i. induction rows as [|r rows IH]; intros offset i.
  - now destruct i.
  - destruct i as [|i]; simpl.
    + now rewrite Z.add_0_r.
    + rewrite IH. do 2 f_equal. lia.
Qed.

Lemma reindex_length (tasks : list Task) :
  List.length (reindex tasks) = List.length tasks.
Proof.
  unfold reindex.
  rewrite with_row_index_length, length_map.
  apply Permutation_length, df_sort_perm.
Qed.

Lemma reindex_ids (tasks : list Task) :
  map id (reindex tasks) = map Z.of_nat (seq 1 (List.length tasks)).
Proof.
  unfold reindex.
  rewrite (with_row_index_ids 1), length_map.
  now rewrite (Permutation_length (df_sort_perm _ _ tasks)).
Qed.

Lemma reindex_rows (tasks : list Task) :
  Permutation (map drop_id (reindex tasks)) (map drop_id tasks).
Proof.
  unfold reindex. rewrite with_row_index_rows.
  apply Permutation_map, df_sort_perm.
Qed.

Lemma reindex_dense (tasks : list Task) : ids_dense (reindex tasks).
Proof.
  unfold ids_dense. rewrite reindex_ids, reindex_length. split.
  - apply Finite.Injective_map_NoDup.
    + intros a b. apply Nat2Z.inj.
    + apply seq_NoDup.
  - intros k. rewrite in_map_iff. split.
    + intros [n [<- Hn]]. apply in_seq in Hn. lia.
    + intros Hk. exists (Z.to_nat k). split; [lia|].
      apply in_seq. lia.
Qed.

(** ** The order of [reindex], written out *)

Lemma Date_compare_Lt (a b : Date) : Date_compare a b = Lt <-> Date_lt a b.
Proof.
  unfold Date_compare, Date_lt, lex.
  destruct (Z.compare_spec (year a) (year b));
    destruct (Z.compare_spec (month a) (month b));
    destruct (Z.compare_spec (day a) (day b));
    split; intros; try discriminate; try reflexivity; lia.
Qed.

Lemma Date_compare_Eq (a b : Date) : Date_compare a b = Eq <-> a = b.
Proof.
  unfold Date_compare, lex. destruct a as [ya ma da], b as [yb mb db]; simpl.
  destruct (Z.compare_spec ya yb);
    destruct (Z.compare_spec ma mb);
    destruct (Z.compare_spec da db);
    split; intros H'; try discriminate; try reflexivity;
    try (injection H' as -> -> ->); subst; try reflexivity; lia.
Qed.

Lemma nullable_Lt (x y : option Date) :
  nullable_compare Date_compare false x y = Lt <-> nulls_first_lt x y.
Proof.
  destruct x, y; simpl; try apply Date_compare_Lt;
    split; intros; try discriminate; try contradiction; auto.
Qed.

Lemma nullable_Eq (x y : option Date) :
  nullable_compare Date_compare false x y = Eq <-> x = y.
Proof.
  destruct x as [a|], y as [b|]; simpl;
    try (split; intros; discriminate); try (split; reflexivity).
  rewrite Date_compare_Eq. split; congruence.
Qed.

Lemma strictly_before_iff (a b : Task) :
  strictly_before a b
  <-> rows_compare
        [c_is_visible; c_is_pin; c_status; c_scheduled; c_deadline]
        [true; true; true; false; false] a b = Lt.
Proof.
  cbn [rows_compare column_compare directed].
  split.
  - intros [Hv1 Hv2 | Hv Hp1 Hp2 | Hv Hp Hs1 Hs2 | Hv Hp Hs Hd | Hv Hp Hs Hd Hl].
    + now rewrite Hv1, Hv2.
    + rewrite Hv, Hp1, Hp2. now destruct (is_visible b).
    + rewrite Hv, Hp, Hs1, Hs2. now destruct (is_visible b), (is_pin b).
    + rewrite Hv, Hp, Hs. apply nullable_Lt in Hd. rewrite Hd.
      now destruct (is_visible b), (is_pin b), (status b).
    + rewrite Hv, Hp, Hs. apply nullable_Lt in Hl. rewrite Hl.
      assert (He : nullable_compare Date_compare false
                     (scheduled a) (scheduled b) = Eq)
        by now apply nullable_Eq.
      rewrite He.
      now destruct (is_visible b), (is_pin b), (status b).
  - destruct (is_visible a) eqn:Hva, (is_visible b) eqn:Hvb;
      destruct (is_pin a) eqn:Hpa, (is_pin b) eqn:Hpb;
      destruct (status a) eqn:Hsa, (status b) eqn:Hsb;
      simpl; intros H; try discriminate;
      try (apply before_by_visible; congruence);
      try (apply before_by_pin; congruence);
      try (apply before_by_status; congruence);
      (destruct (nullable_compare Date_compare false
                   (scheduled a) (scheduled b)) eqn:Hd;
       simpl in H; try discriminate;
       [ destruct (nullable_compare Date_compare false
                     (deadline a) (deadline b)) eqn:Hl;
         simpl in H; try discriminate;
         apply before_by_deadline; try congruence;
         [ now apply nullable_Eq | now apply nullable_Lt ]
       | apply before_by_scheduled; try congruence;
         now apply nullable_Lt ]).
Qed.

Lemma renumbered_compare (by_cols : list column) (descending : list bool)
    (i j : Z) (a b : Task) :
  ~ In c_id by_cols ->
  rows_compare by_cols descending (with_id i (drop_id a)) (with_id j (drop_id b))
  = rows_compare by_cols descending a b.
Proof.
  revert descending.
  induction by_cols as [|c by_cols IH]; intros descending Hc.
  - reflexivity.
  - destruct descending as [|d descending]; [reflexivity|].
    simpl. rewrite IH by (intros Hin; apply Hc; now right).
    f_equal. destruct c; try reflexivity.
    exfalso. apply Hc. now left.
Qed.

Lemma reindex_nth (tasks : list Task) (i : nat) (a : Task) :
  nth_error (reindex tasks) i = Some a ->
  exists a',
    nth_error
      (df_sort [c_is_visible; c_is_pin; c_status; c_scheduled; c_deadline]
               [true; true; true; false; false] tasks) i = Some a'
    /\ a = with_id (1 + Z.of_nat i) (drop_id a').
Proof.
  unfold reindex. rewrite with_row_index_nth, nth_error_map.
  destruct (nth_error _ i) as [a'|]; simpl; [|discriminate].
  intros [= <-]. now exists a'.
Qed.

(** ** The commands, as functions of the stored table *)

Lemma load_bind {A : Type} (k : list Task -> M A) (w : World) :
  (tasks <- load_tasks ;; k tasks) w = k (stored w) w.
Proof.
  unfold bind, load_tasks, stored. now destruct (file w).
Qed.

Lemma lift_bind {A B : Type} (r : result A) (k : A -> M B) (w : World) :
  (x <- lift r ;; k x) w
  = match r with
    | Ok a => k a w
    | Raise e => (Raise e, w)
    end.
Proof. unfold bind, lift. now destruct r. Qed.

Lemma add_task_run (task : string) (w : World) :
  add_task task w
  = if next_id (stored w) <=? Int64_max
    then (Ok tt,
          mkWorld
            (Some (reindex
                     (stored w
                      ++ [mkTask (next_id (stored w)) TODO task None None
                                 (clock w) true false None])%list))
            (clock w) (stdout w))
    else (Raise TypeError, w).
Proof.
  unfold add_task. rewrite load_bind. unfold bind, now.
  now destruct (next_id (stored w) <=? Int64_max).
Qed.

Lemma prune_done_run (w : World) :
  prune_done w
  = (Ok tt,
     mkWorld
       (Some (reindex
                (map (fun t =>
                        set_is_visible
                          (if Status_eqb (status t) DONE then false
                           else is_visible t) t) (stored w))))
       (clock w) (stdout w)).
Proof. unfold prune_done. rewrite load_bind. reflexivity. Qed.

(** ** C1: what [reindex] does *)

(** C1, as the code has it.  [reindex] keeps every row of the stored
    table, hidden ones included, and puts them in this order: visible rows
    first, then pinned rows first, then by status descending, which places
    TODO before DONE because the enum lists DONE first, then by the
    scheduled date ascending and by the deadline ascending, a missing date
    coming before every date.  No row stands after a row it should strictly
    precede, and the row at position i (from 0) gets id i + 1. *)
Theorem reindex_sorts_then_numbers :
  forall tasks : list Task,
    (forall (i j : nat) (a b : Task),
        (i < j)%nat ->
        nth_error (reindex tasks) i = Some a ->
        nth_error (reindex tasks) j = Some b ->
        ~ strictly_before b a)
    /\ (forall (i : nat) (a : Task),
           nth_error (reindex tasks) i = Some a -> id a = Z.of_nat i + 1)
    /\ Permutation (map drop_id (reindex tasks)) (map drop_id tasks).
Proof.
  intros tasks. split; [|split].
  - intros i j a b Hij Ha Hb Hbefore.
    apply reindex_nth in Ha as [a' [Ha ->]].
    apply reindex_nth in Hb as [b' [Hb ->]].
    apply strictly_before_iff in Hbefore.
    rewrite renumbered_compare in Hbefore
      by (simpl; intuition discriminate).
    assert (Hcols : Forall (fun c => c <> c_desc)
              [c_is_visible; c_is_pin; c_status; c_scheduled; c_deadline])
      by (repeat constructor; discriminate).
    pose proof (df_sort_sorted _ [true; true; true; false; false] tasks Hcols)
      as Hsorted.
    pose proof (StronglySorted_nth _ _ Hsorted i j a' b' Hij Ha Hb) as Hle.
    unfold comes_first in Hle.
    rewrite (orderly_sym _ (orderly_rows _ Hcols _) b' a'), Hbefore in Hle.
    discriminate.
  - intros i a Ha.
    apply reindex_nth in Ha as [a' [_ ->]]. unfold with_id. cbn [id]. lia.
  - apply reindex_rows.
Qed.

(** C1, as the specification words it, fails on the code.  An open task
    stored after a finished one is put first, where the claim wants DONE
    before TODO; an undated task stored after a dated one is put first,
    where the claim wants the nulls last. *)
Lemma reindex_todo_first_nulls_first :
  reindex [finished; open_task]
  = [with_id 1 (drop_id open_task); with_id 2 (drop_id finished)]
  /\ claimed_compare open_task finished = Gt
  /\ reindex [dated; undated]
     = [with_id 1 (drop_id undated); with_id 2 (drop_id dated)]
  /\ claimed_compare undated dated = Gt.
Proof. repeat split; reflexivity. Qed.

(** ** C2: dense ids after add and prune *)

(** C2.  When [add_task] completes, and after [prune_done], the ids of
    the stored table are exactly 1, ..., N without repetition, N being the
    number of stored rows: one more than before for add, as many as before
    for prune.  ([add_task] completes unless the id it works out for the
    new row is too large for the column.) *)
Theorem ids_dense_after_add_and_prune :
  forall (w : World) (task : string),
    (fst (add_task task w) = Ok tt ->
     ids_dense (stored (exec (add_task task) w))
     /\ List.length (stored (exec (add_task task) w))
        = S (List.length (stored w)))
    /\ (ids_dense (stored (exec prune_done w))
        /\ List.length (stored (exec prune_done w))
           = List.length (stored w)).
Proof.
  intros w task. unfold exec.
  rewrite add_task_run, prune_done_run. split.
  - destruct (next_id (stored w) <=? Int64_max); [|discriminate].
    intros _. cbn [snd stored file]. split; [apply reindex_dense|].
    rewrite reindex_length, length_app. simpl. lia.
  - cbn [snd stored file]. split; [apply reindex_dense|].
    now rewrite reindex_length, length_map.
Qed.

(** ** C10: [reindex] touches the id column only *)

(** C10.  Without their id, the rows after [reindex] are the rows before
    it, in some order and each as often as before; the row count is the
    same. *)
Theorem reindex_changes_only_id :
  forall tasks : list Task,
    Permutation (map drop_id (reindex tasks)) (map drop_id tasks)
    /\ List.length (reindex tasks) = List.length tasks.
Proof.
  intros tasks. split; [apply reindex_rows | apply reindex_length].
Qed.

Lemma pin_task_run (task_ids : list Z) (w : World) :
  pin_task task_ids w
  = (Ok tt,
     mkWorld
       (Some (map (fun t =>
                     set_is_pin
                       (if is_in (id t) task_ids && is_pin t then false
                        else if is_in (id t) task_ids && negb (is_pin t)
                             then true
                             else is_pin t) t) (stored w)))
       (clock w) (stdout w)).
Proof. unfold pin_task. rewrite load_bind. reflexivity. Qed.

(** What [mark_done] makes of one row: the three column updates in turn. *)
Lemma mark_done_run (task_ids : list Z) (w : World) :
  mark_done task_ids w
  = (Ok tt,
     mkWorld
       (Some (map (fun t =>
                     let hit := is_in (id t) task_ids in
                     let was_done := Status_eqb (status t) DONE in
                     mkTask (id t)
                            (if hit && was_done then TODO
                             else if hit && negb was_done then DONE
                             else status t)
                            (desc t) (scheduled t) (deadline t) (created t)
                            (if hit && was_done then true
                             else if hit && negb was_done then is_visible t
                             else if negb was_done then true
                             else is_visible t)
                            (is_pin t)
                            (if hit && was_done then None
                             else if hit && negb was_done
                                  then Some (on_date (clock w))
                                  else done_date t)) (stored w)))
       (clock w) (stdout w)).
Proof.
  unfold mark_done. rewrite load_bind.
  unfold bind, now, save_tasks. cbn [fst snd].
  do 3 f_equal. rewrite !map_map. apply map_ext.
  intros t. unfold set_is_visible, set_status, set_done_date. cbn.
  destruct (is_in (id t) task_ids), (status t); reflexivity.
Qed.

Lemma schedule_task_run (date : string) (task_ids : list Z) (w : World) :
  schedule_task date task_ids w
  = match cast_Date date with
    | None => (Raise ComputeError, w)
    | Some d =>
        (Ok tt,
         mkWorld
           (Some (map (fun t =>
                         set_scheduled
                           (if is_in (id t) task_ids then Some d
                            else scheduled t) t) (stored w)))
           (clock w) (stdout w))
    end.
Proof.
  unfold schedule_task. rewrite load_bind.
  now destruct (cast_Date date).
Qed.

Lemma set_deadline_run (date : string) (task_ids : list Z) (w : World) :
  set_deadline date task_ids w
  = match cast_Date date with
    | None => (Raise ComputeError, w)
    | Some d =>
        (Ok tt,
         mkWorld
           (Some (map (fun t =>
                         set_deadline_col
                           (if is_in (id t) task_ids then Some d
                            else deadline t) t) (stored w)))
           (clock w) (stdout w))
    end.
Proof.
  unfold set_deadline. rewrite load_bind.
  now destruct (cast_Date date).
Qed.

Lemma list_tasks_file (regex : option string) (w : World) :
  file (exec (list_tasks regex) w) = file w.
Proof.
  unfold exec, list_tasks. rewrite load_bind, lift_bind.
  destruct (rows_to_print regex (stored w)) as [rows|e]; [|reflexivity].
  destruct (negb (is_empty rows)); [|reflexivity].
  destruct (existsb is_pin rows); rewrite lift_bind;
    (destruct (any_dates (map scheduled rows)); [|reflexivity]);
    rewrite lift_bind;
    (destruct (any_dates (map deadline rows)); reflexivity).
Qed.

Lemma dump_tasks_file (w : World) : file (exec dump_tasks w) = file w.
Proof. unfold exec, dump_tasks. rewrite load_bind. reflexivity. Qed.

Lemma add_raises_again (tasks : list string) (w : World) :
  (next_id (stored w) <=? Int64_max) = false ->
  fold_left (fun w' task => exec (add_task task) w') tasks w = w.
Proof.
  intros H. induction tasks as [|task tasks IH]; simpl.
  - reflexivity.
  - unfold exec at 2. rewrite add_task_run, H. exact IH.
Qed.

Lemma for_each_add (tasks : list string) (w : World) :
  exec (for_each tasks add_task) w
  = fold_left (fun w' task => exec (add_task task) w') tasks w.
Proof.
  revert w. induction tasks as [|task tasks IH]; intros w; simpl.
  - reflexivity.
  - unfold exec at 2. unfold exec, bind in *. rewrite add_task_run.
    destruct (next_id (stored w) <=? Int64_max) eqn:Hid.
    + apply IH.
    + cbn [snd]. symmetry. apply add_raises_again, Hid.
Qed.

(** ** C3: the done date goes with the status *)

Lemma consistent_rows (tasks : list Task) :
  done_date_consistent tasks
  <-> Forall (fun r => r_done_date r <> None <-> r_status r = DONE)
             (map drop_id tasks).
Proof. unfold done_date_consistent. now rewrite Forall_map. Qed.

Lemma consistent_reindex (tasks : list Task) :
  done_date_consistent tasks -> done_date_consistent (reindex tasks).
Proof.
  rewrite !consistent_rows. apply Permutation_Forall.
  apply Permutation_sym, reindex_rows.
Qed.

Lemma consistent_map (f : Task -> Task) (tasks : list Task) :
  (forall t,
      (done_date t <> None <-> status t = DONE) ->
      (done_date (f t) <> None <-> status (f t) = DONE)) ->
  done_date_consistent tasks -> done_date_consistent (map f tasks).
Proof.
  intros Hf. unfold done_date_consistent. rewrite Forall_map.
  apply Forall_impl. exact Hf.
Qed.

Lemma consistent_add (task : string) (w : World) :
  done_date_consistent (stored w) ->
  done_date_consistent (stored (exec (add_task task) w)).
Proof.
  intros H. unfold exec. rewrite add_task_run.
  destruct (next_id (stored w) <=? Int64_max); [|exact H].
  cbn [snd stored file].
  apply consistent_reindex. apply Forall_app. split; [exact H|].
  constructor; [|constructor]. simpl. split; [congruence|discriminate].
Qed.

(** C3.  Every command keeps the tie between the two columns: if, in the
    stored table, each row has a done date exactly when its status is
    DONE, the same holds of the table stored after add, pin, done,
    schedule, deadline and prune (and after list and dump, which store
    nothing). *)
Theorem done_date_consistency_kept :
  forall (args : Command) (w : World),
    done_date_consistent (stored w) ->
    done_date_consistent (stored (exec (main args) w)).
Proof.
  intros args w H. destruct args; simpl.
  - unfold stored. now rewrite list_tasks_file.
  - rewrite for_each_add. revert w H.
    induction tasks as [|task tasks IH]; intros w H; simpl.
    + exact H.
    + apply IH, consistent_add, H.
  - unfold exec. rewrite pin_task_run. cbn [snd stored file].
    revert H. apply consistent_map. intros t Ht. exact Ht.
  - unfold exec. rewrite mark_done_run. cbn [snd stored file].
    revert H. apply consistent_map. intros t Ht. cbn.
    destruct (is_in (id t) task_ids), (status t) eqn:Hs; cbn;
      try exact Ht; split; congruence.
  - unfold exec. rewrite schedule_task_run.
    destruct (cast_Date date); cbn [snd stored file]; [|exact H].
    revert H. apply consistent_map. intros t Ht. exact Ht.
  - unfold exec. rewrite set_deadline_run.
    destruct (cast_Date date); cbn [snd stored file]; [|exact H].
    revert H. apply consistent_map. intros t Ht. exact Ht.
  - unfold exec. rewrite prune_done_run. cbn [snd stored file].
    apply consistent_reindex. revert H.
    apply consistent_map. intros t Ht. exact Ht.
  - unfold stored. now rewrite dump_tasks_file.
Qed.

(** ** C4: done and undone *)

Lemma is_in_self (x : Z) : is_in x [x] = true.
Proof. unfold is_in. simpl. now rewrite Z.eqb_refl. Qed.

(** C4, as the code has it.  Marking the row of a stored task done twice
    in a row, the second time at any later moment, gives the row its
    status back and, if it was visible, leaves it visible.  Its done date
    ends empty if the task was TODO, and ends as the day of the second
    call if the task was DONE. *)
Theorem toggle_done_twice :
  forall (w : World) (later : Datetime) (k : nat) (t : Task),
    nth_error (stored w) k = Some t ->
    exists t2 : Task,
      nth_error
        (stored (exec (mark_done [id t])
                      (set_clock later (exec (mark_done [id t]) w)))) k
      = Some t2
      /\ status t2 = status t
      /\ (is_visible t = true -> is_visible t2 = is_visible t)
      /\ (status t = TODO -> done_date t2 = None)
      /\ (status t = DONE -> done_date t2 = Some (on_date later)).
Proof.
  intros w later k t Hk. unfold exec.
  rewrite !mark_done_run. cbn [snd stored file set_clock clock].
  rewrite map_map, nth_error_map, Hk. cbn [option_map].
  eexists. split; [reflexivity|].
  cbn [id status is_visible done_date]. rewrite !is_in_self.
  destruct (status t), (is_visible t); cbn;
    repeat split; intros; congruence.
Qed.

(** C4, as the specification words it, fails on the code.  The task
    finished on new year's day and toggled twice on midsummer day is DONE
    again, but its done date is now midsummer day. *)
Lemma toggle_twice_moves_done_date :
  nth_error (stored finished_world) 0 = Some finished
  /\ done_date finished = Some new_year
  /\ option_map done_date
       (nth_error
          (stored (exec (mark_done [id finished])
                        (exec (mark_done [id finished]) finished_world))) 0)
     = Some (Some midsummer)
  /\ Some midsummer <> done_date finished.
Proof. repeat split; try reflexivity. discriminate. Qed.

(** ** C5: which rows [mark_done] makes visible *)

(** C5, as the code has it.  After [mark_done] every row that ends up
    TODO is visible, whether its id was given or not, and every row that
    ends up DONE has the visibility it had.  A row whose id was not given
    keeps its status, and keeps its visibility if it is DONE or was
    visible already. *)
Theorem mark_done_visibility :
  forall (w : World) (task_ids : list Z) (k : nat) (t : Task),
    nth_error (stored w) k = Some t ->
    exists t' : Task,
      nth_error (stored (exec (mark_done task_ids) w)) k = Some t'
      /\ (status t' = TODO -> is_visible t' = true)
      /\ (status t' = DONE -> is_visible t' = is_visible t)
      /\ (is_in (id t) task_ids = false ->
          status t' = status t
          /\ (status t = DONE \/ is_visible t = true ->
              is_visible t' = is_visible t)).
Proof.
  intros w task_ids k t Hk. unfold exec.
  rewrite mark_done_run. cbn [snd stored file].
  rewrite nth_error_map, Hk. cbn [option_map].
  eexists. split; [reflexivity|]. cbn.
  destruct (is_in (id t) task_ids), (status t), (is_visible t); cbn;
    repeat split; intros; try congruence;
    match goal with
    | H : _ \/ _ |- _ => destruct H; congruence
    end.
Qed.

(** C5, as the specification words it, fails on the code.  Marking task 1
    done makes the hidden open task 2 visible, though 2 was not given. *)
Lemma mark_done_shows_other_row :
  nth_error (stored hidden_world) 1 = Some hidden_open
  /\ is_in (id hidden_open) [1] = false
  /\ is_visible hidden_open = false
  /\ option_map is_visible
       (nth_error (stored (exec (mark_done [1]) hidden_world)) 1)
     = Some true.
Proof. repeat split; reflexivity. Qed.

(** ** C7: the first task *)

(** C7.  When the task file is missing or holds no row, [add_task]
    raises nothing and stores one row: id 1, TODO, the given text, no
    scheduled date, no deadline, created now, visible, not pinned, no done
    date.  Nothing is printed. *)
Theorem add_to_empty_store :
  forall (w : World) (task : string),
    file w = None \/ file w = Some [] ->
    add_task task w
    = (Ok tt,
       mkWorld
         (Some [mkTask 1 TODO task None None (clock w) true false None])
         (clock w) (stdout w)).
Proof.
  intros w task Hfile. rewrite add_task_run.
  assert (Hs : stored w = []).
  { unfold stored. destruct Hfile as [-> | ->]; reflexivity. }
  rewrite Hs. reflexivity.
Qed.

(** ** C9: listing stores nothing *)

(** C9.  [list_tasks], with or without a pattern, and [dump_tasks] leave
    the task file as it was, also when the pattern is rejected. *)
Theorem list_and_dump_keep_file :
  forall (w : World) (regex : option string),
    file (exec (list_tasks regex) w) = file w
    /\ file (exec dump_tasks w) = file w.
Proof.
  intros w regex. split; [apply list_tasks_file | apply dump_tasks_file].
Qed.

(** ** C8: ids that name no task *)

Lemma is_in_unknown (x i : Z) (ids1 ids2 : list Z) :
  x <> i -> is_in x (ids1 ++ i :: ids2)%list = is_in x (ids1 ++ ids2)%list.
Proof.
  intros Hx. unfold is_in. rewrite !existsb_app. simpl.
  apply Z.eqb_neq in Hx. now rewrite Hx.
Qed.

Lemma map_unknown (i : Z) (ids1 ids2 : list Z)
    (f : list Z -> Task -> Task) (tasks : list Task) :
  (forall t, id t <> i ->
             f (ids1 ++ i :: ids2)%list t = f (ids1 ++ ids2)%list t) ->
  ~ In i (map id tasks) ->
  map (f (ids1 ++ i :: ids2)%list) tasks = map (f (ids1 ++ ids2)%list) tasks.
Proof.
  intros Hf Hi. apply map_ext_in. intros t Ht. apply Hf.
  intros <-. apply Hi. now apply in_map.
Qed.

(** C8.  An id that names no stored task has no effect in pin, done,
    schedule and deadline: wherever it stands among the given ids, the
    command returns what it returns without it and leaves the same file
    and the same output.  With it the command raises nothing (schedule
    and deadline given a date they accept). *)
Theorem unknown_id_is_ignored :
  forall (m : Mutation) (ids1 ids2 : list Z) (i : Z) (w : World),
    ~ In i (map id (stored w)) ->
    main (mutate m (ids1 ++ i :: ids2)%list) w
    = main (mutate m (ids1 ++ ids2)%list) w
    /\ (date_accepted m ->
        fst (main (mutate m (ids1 ++ i :: ids2)%list) w) = Ok tt).
Proof.
  intros m ids1 ids2 i w Hi. destruct m; simpl.
  - rewrite !pin_task_run. split; [|reflexivity].
    do 3 f_equal.
    apply (map_unknown i ids1 ids2
             (fun ids t =>
                set_is_pin
                  (if is_in (id t) ids && is_pin t then false
                   else if is_in (id t) ids && negb (is_pin t) then true
                   else is_pin t) t)); [|exact Hi].
    intros t Ht. now rewrite (is_in_unknown _ _ _ _ Ht).
  - rewrite !mark_done_run. split; [|reflexivity].
    do 3 f_equal.
    apply (map_unknown i ids1 ids2
             (fun ids t =>
                mkTask (id t)
                  (if is_in (id t) ids && Status_eqb (status t) DONE
                   then TODO
                   else if is_in (id t) ids
                           && negb (Status_eqb (status t) DONE)
                        then DONE else status t)
                  (desc t) (scheduled t) (deadline t) (created t)
                  (if is_in (id t) ids && Status_eqb (status t) DONE
                   then true
                   else if is_in (id t) ids
                           && negb (Status_eqb (status t) DONE)
                        then is_visible t
                        else if negb (Status_eqb (status t) DONE)
                             then true else is_visible t)
                  (is_pin t)
                  (if is_in (id t) ids && Status_eqb (status t) DONE
                   then None
                   else if is_in (id t) ids
                           && negb (Status_eqb (status t) DONE)
                        then Some (on_date (clock w))
                        else done_date t))); [|exact Hi].
    intros t Ht. now rewrite (is_in_unknown _ _ _ _ Ht).
  - rewrite !schedule_task_run.
    destruct (cast_Date date) as [d|]; split; try reflexivity;
      try (intros Hd; now contradiction Hd).
    do 3 f_equal.
    apply (map_unknown i ids1 ids2
             (fun ids t =>
                set_scheduled
                  (if is_in (id t) ids then Some d else scheduled t) t));
      [|exact Hi].
    intros t Ht. now rewrite (is_in_unknown _ _ _ _ Ht).
  - rewrite !set_deadline_run.
    destruct (cast_Date date) as [d|]; split; try reflexivity;
      try (intros Hd; now contradiction Hd).
    do 3 f_equal.
    apply (map_unknown i ids1 ids2
             (fun ids t =>
                set_deadline_col
                  (if is_in (id t) ids then Some d else deadline t) t));
      [|exact Hi].
    intros t Ht. now rewrite (is_in_unknown _ _ _ _ Ht).
Qed.

(** ** C6: the filter of [list_tasks] *)

Lemma lower_keeps_syntax (c : ascii) :
  is_meta (lower_ascii c) = is_meta c /\ is_dot (lower_ascii c) = is_dot c.
Proof. destruct c as [[] [] [] [] [] [] [] []]; split; reflexivity. Qed.

Lemma plain_ascii_lowercase (s : string) :
  plain_text s = true -> plain_text (ascii_lowercase s) = true.
Proof.
  induction s as [|c s IH]; simpl; [reflexivity|].
  destruct (lower_keeps_syntax c) as [-> ->].
  rewrite !andb_true_iff. intros [Hc Hs]. split; [exact Hc | apply IH, Hs].
Qed.

(** For ASCII text, lower-casing brings in no special character. *)
Lemma plain_lower (s : string) :
  is_ascii s = true -> plain_text s = true -> plain_text (lower s) = true.
Proof.
  intros Ha Hp. unfold lower. rewrite Ha. apply plain_ascii_lowercase, Hp.
Qed.

Lemma parse_plain (s : string) :
  plain_text s = true ->
  parse_regex s = Some (map Lit (list_ascii_of_string s)).
Proof.
  induction s as [|c s IH]; simpl; [reflexivity|].
  rewrite !andb_true_iff, !negb_true_iff. intros [[Hm Hd] Hs].
  now rewrite Hm, Hd, (IH Hs).
Qed.

Lemma literals_have_no_dot (cs : list ascii) : has_dot (map Lit cs) = false.
Proof. induction cs as [|c cs IH]; simpl; [reflexivity | exact IH]. Qed.

Lemma match_here_plain (needle hay : string) :
  match_here (map Lit (list_ascii_of_string needle)) hay
  = String.prefix needle hay.
Proof.
  revert hay. induction needle as [|a needle IH]; intros hay.
  - now destruct hay.
  - destruct hay as [|b hay]; simpl; [reflexivity|].
    destruct (ascii_dec a b) as [->|Hab].
    + now rewrite Ascii.eqb_refl, IH.
    + apply Ascii.eqb_neq in Hab. now rewrite Hab.
Qed.

Lemma str_contains_plain (needle hay : string) :
  str_contains (map Lit (list_ascii_of_string needle)) hay
  = occurs_in needle hay.
Proof.
  induction hay as [|b hay IH]; simpl str_contains; simpl occurs_in;
    rewrite match_here_plain; [reflexivity|].
  now rewrite IH.
Qed.

Lemma is_match_plain (pattern s : string) :
  plain_text pattern = true -> is_match pattern s = occurs_in pattern s.
Proof.
  intros Hp. unfold is_match.
  rewrite (parse_plain _ Hp), literals_have_no_dot. simpl.
  apply str_contains_plain.
Qed.

Lemma regex_accepted_plain (pattern : string) :
  plain_text pattern = true -> regex_accepted pattern = true.
Proof. intros Hp. unfold regex_accepted. now rewrite (parse_plain _ Hp). Qed.

Lemma prefix_app (needle hay : string) :
  String.prefix needle hay = true <-> exists post, hay = needle ++ post.
Proof.
  revert hay. induction needle as [|a needle IH]; intros hay.
  - split; [intros _; now exists hay | now destruct hay].
  - destruct hay as [|b hay]; simpl.
    + split; [discriminate | intros [post H]; discriminate].
    + destruct (ascii_dec a b) as [->|Hab].
      * rewrite IH. split; intros [post H]; exists post.
        -- now rewrite H.
        -- now injection H.
      * split; [discriminate|].
        intros [post H]. injection H as H _. congruence.
Qed.

Lemma occurs_in_Substring (needle hay : string) :
  occurs_in needle hay = true <-> Substring needle hay.
Proof.
  split.
  - induction hay as [|c hay IH]; cbn [occurs_in]; rewrite orb_true_iff.
    + intros [H|H]; [|discriminate].
      apply prefix_app in H as [post H]. now exists "", post.
    + intros [H|H].
      * apply prefix_app in H as [post H]. now exists "", post.
      * destruct (IH H) as [pre [post Heq]].
        exists (String c pre), post. simpl. now rewrite Heq.
  - intros [pre [post Heq]]. revert hay Heq.
    induction pre as [|c pre IH]; intros hay Heq; simpl in Heq.
    + assert (Hp : String.prefix needle hay = true)
        by (apply prefix_app; now exists post).
      destruct hay; cbn [occurs_in]; now rewrite Hp.
    + subst hay. cbn [occurs_in]. rewrite (IH _ eq_refl). apply orb_true_r.
Qed.

Lemma occurs_in_empty (hay : string) : occurs_in "" hay = true.
Proof. now destruct hay. Qed.

Lemma filter_twice {A : Type} (f g : A -> bool) (l : list A) :
  filter g (filter f l) = filter (fun x => f x && g x) l.
Proof.
  induction l as [|x l IH]; simpl; [reflexivity|].
  destruct (f x); simpl; [|exact IH].
  destruct (g x); now rewrite IH.
Qed.

Lemma rows_to_print_plain (text : string) (tasks : list Task) :
  plain_text (lower text) = true ->
  rows_to_print (Some text) tasks = Ok (rows_matching_text text tasks).
Proof.
  intros Hplain. unfold rows_to_print, rows_matching_text.
  destruct text as [|c text].
  - f_equal. apply filter_ext. intros t.
    change (lower "") with "". now rewrite occurs_in_empty, andb_true_r.
  - rewrite (regex_accepted_plain _ Hplain), filter_twice.
    f_equal. apply filter_ext. intros t.
    now rewrite (is_match_plain _ _ Hplain).
Qed.

(** What [list_tasks] does, outcome by outcome. *)
Lemma list_tasks_run (regex : option string) (w : World) :
  list_tasks regex w
  = match rows_to_print regex (stored w) with
    | Raise e => (Raise e, w)
    | Ok kept =>
        if is_empty kept
        then (Ok tt,
              mkWorld (file w) (clock w)
                      (stdout w ++ [Text "No active tasks found."])%list)
        else
          match any_dates (map scheduled kept) with
          | Raise e => (Raise e, w)
          | Ok any_scheduled =>
              match any_dates (map deadline kept) with
              | Raise e => (Raise e, w)
              | Ok any_deadline =>
                  (Ok tt,
                   mkWorld (file w) (clock w)
                     (stdout w
                      ++ [Table
                            (((if existsb is_pin kept
                               then ["pin"; "id"; "status"; "desc"]
                               else ["id"; "status"; "desc"])
                              ++ (if any_scheduled
                                  then ["scheduled"] else []))
                             ++ (if any_deadline then ["deadline"] else []))
                            (df_sort
                               (if existsb is_pin kept
                                then [c_is_pin; c_status; c_scheduled;
                                      c_deadline]
                                else [c_status; c_scheduled; c_deadline])
                               (if existsb is_pin kept
                                then [true; true; false; false]
                                else [true; false; false]) kept)])%list)
              end
          end
    end.
Proof.
  unfold list_tasks. rewrite load_bind, lift_bind.
  destruct (rows_to_print regex (stored w)) as [kept|e]; [|reflexivity].
  destruct (is_empty kept); cbn [negb]; [reflexivity|].
  destruct (existsb is_pin kept); rewrite lift_bind;
    (destruct (any_dates (map scheduled kept)) as [[]|]; [| |reflexivity]);
    rewrite lift_bind;
    (destruct (any_dates (map deadline kept)) as [[]|]);
    cbn [app]; rewrite ?app_nil_r; reflexivity.
Qed.

(** C6, as the code has it.  The text given to list is lower-cased and
    handed to the pattern search.  When the lower-cased text holds no
    character with a special meaning in a pattern (for ASCII text: when
    the text holds none), list keeps exactly the visible rows in which it
    occurs, letter case set aside, as a substring of the concatenation of
    the nine columns cast to text, the null cells left out.  A table it
    prints holds these rows, and when there are none it prints the message
    that there are none.  So with the tasks Buy milk and Call bank both
    milk and MILK keep only the first. *)
Theorem list_keeps_rows_matching_plain_text :
  forall (text : string) (w : World),
    plain_text (lower text) = true ->
    rows_to_print (Some text) (stored w)
    = Ok (rows_matching_text text (stored w))
    /\ (forall t : Task,
           In t (rows_matching_text text (stored w))
           <-> In t (stored w) /\ is_visible t = true
               /\ Substring (lower text) (to_lowercase (row_text t)))
    /\ (forall (cols : list string) (rows : list Task),
           list_tasks (Some text) w
           = (Ok tt,
              mkWorld (file w) (clock w)
                      (stdout w ++ [Table cols rows])%list) ->
           Permutation rows (rows_matching_text text (stored w)))
    /\ (rows_matching_text text (stored w) = [] ->
        list_tasks (Some text) w
        = (Ok tt,
           mkWorld (file w) (clock w)
                   (stdout w ++ [Text "No active tasks found."])%list))
    /\ rows_to_print (Some "milk") (stored milk_world) = Ok [buy_milk]
    /\ rows_to_print (Some "MILK") (stored milk_world) = Ok [buy_milk].
Proof.
  intros text w Hplain.
  pose proof (rows_to_print_plain text (stored w) Hplain) as Hrows.
  split; [exact Hrows|]. split; [|split; [|split]].
  - intros t. unfold rows_matching_text.
    rewrite filter_In, andb_true_iff, occurs_in_Substring. tauto.
  - intros cols rows. rewrite list_tasks_run, Hrows.
    destruct (is_empty (rows_matching_text text (stored w))).
    + intros H. apply (f_equal snd) in H. apply (f_equal stdout) in H.
      simpl in H. apply app_inv_head in H. discriminate.
    + destruct (any_dates _); [|discriminate].
      destruct (any_dates _); [|discriminate].
      intros H. apply (f_equal snd) in H. apply (f_equal stdout) in H.
      simpl in H. apply app_inv_head in H. injection H as _ <-.
      apply df_sort_perm.
  - intros Hnone. rewrite list_tasks_run, Hrows, Hnone. reflexivity.
  - split; reflexivity.
Qed.

(** * Further properties of the commands *)

(** ** Pinning *)

(** X1.  Pinning the same ids twice gives back the stored table, row for
    row: [pin_task] toggles, it does not set. *)
Theorem pin_twice_restores :
  forall (task_ids : list Z) (w : World),
    stored (exec (pin_task task_ids) (exec (pin_task task_ids) w))
    = stored w.
Proof.
  intros task_ids w. unfold exec.
  rewrite !pin_task_run. cbn [snd stored file].
  rewrite map_map. rewrite <- (map_id (stored w)) at 2.
  apply map_ext. intros [i s d sc dl cr v p dd]. unfold set_is_pin. cbn.
  destruct (is_in i task_ids), p; reflexivity.
Qed.

(** ** What the four mutations write *)

(** X2.  Pin, done, schedule and deadline keep the rows in place and
    write only their own cells: pin the pin flag; done the status, the
    done date and the visibility; schedule the scheduled date; deadline
    the deadline.  In particular no id changes, so none of them
    renumbers. *)
Theorem mutation_writes_own_cells :
  forall (m : Mutation) (task_ids : list Z) (w : World),
    map (outside m) (stored (exec (main (mutate m task_ids)) w))
    = map (outside m) (stored w)
    /\ map id (stored (exec (main (mutate m task_ids)) w))
       = map id (stored w).
Proof.
  intros m task_ids w. unfold exec. destruct m; simpl.
  - rewrite pin_task_run. cbn [snd stored file].
    rewrite !map_map. split; apply map_ext; intros t; reflexivity.
  - rewrite mark_done_run. cbn [snd stored file].
    rewrite !map_map. split; apply map_ext; intros t; reflexivity.
  - rewrite schedule_task_run.
    destruct (cast_Date date); cbn [snd stored file]; [|now split].
    rewrite !map_map. split; apply map_ext; intros t; reflexivity.
  - rewrite set_deadline_run.
    destruct (cast_Date date); cbn [snd stored file]; [|now split].
    rewrite !map_map. split; apply map_ext; intros t; reflexivity.
Qed.

Lemma same_row (t : Task) :
  mkTask (id t) (status t) (desc t) (scheduled t) (deadline t) (created t)
         (is_visible t) (is_pin t) (done_date t) = t.
Proof. now destruct t. Qed.

(** X3.  A row whose id is not among the given ids is stored again as it
    was by pin, schedule and deadline, and by done as well unless it is a
    hidden open task (which done makes visible). *)
Theorem unlisted_row_is_kept :
  forall (m : Mutation) (task_ids : list Z) (w : World) (k : nat) (t : Task),
    nth_error (stored w) k = Some t ->
    is_in (id t) task_ids = false ->
    (m = m_done -> status t = DONE \/ is_visible t = true) ->
    nth_error (stored (exec (main (mutate m task_ids)) w)) k = Some t.
Proof.
  intros m task_ids w k t Hk Hout Hdone. unfold exec. destruct m; simpl.
  - rewrite pin_task_run. cbn [snd stored file].
    rewrite nth_error_map, Hk. cbn [option_map]. rewrite Hout.
    unfold set_is_pin. cbn. now rewrite same_row.
  - rewrite mark_done_run. cbn [snd stored file].
    rewrite nth_error_map, Hk. cbn [option_map]. rewrite Hout. cbn.
    destruct (Hdone eq_refl) as [Hs | Hv].
    + rewrite Hs. cbn. rewrite <- Hs. now rewrite same_row.
    + destruct (status t) eqn:Hs; cbn.
      * rewrite <- Hs. now rewrite same_row.
      * rewrite <- Hv, <- Hs. now rewrite same_row.
  - rewrite schedule_task_run.
    destruct (cast_Date date); cbn [snd stored file]; [|exact Hk].
    rewrite nth_error_map, Hk. cbn [option_map]. rewrite Hout.
    unfold set_scheduled. now rewrite same_row.
  - rewrite set_deadline_run.
    destruct (cast_Date date); cbn [snd stored file]; [|exact Hk].
    rewrite nth_error_map, Hk. cbn [option_map]. rewrite Hout.
    unfold set_deadline_col. now rewrite same_row.
Qed.

(** ** Open tasks stay visible *)

Lemma todo_visible_rows (tasks : list Task) :
  todo_visible tasks
  <-> Forall (fun r => r_status r = TODO -> r_is_visible r = true)
             (map drop_id tasks).
Proof. unfold todo_visible. now rewrite Forall_map. Qed.

Lemma todo_visible_reindex (tasks : list Task) :
  todo_visible tasks -> todo_visible (reindex tasks).
Proof.
  rewrite !todo_visible_rows. apply Permutation_Forall.
  apply Permutation_sym, reindex_rows.
Qed.

Lemma todo_visible_map (f : Task -> Task) (tasks : list Task) :
  (forall t,
      (status t = TODO -> is_visible t = true) ->
      (status (f t) = TODO -> is_visible (f t) = true)) ->
  todo_visible tasks -> todo_visible (map f tasks).
Proof.
  intros Hf. unfold todo_visible. rewrite Forall_map.
  apply Forall_impl. exact Hf.
Qed.

Lemma todo_visible_add (task : string) (w : World) :
  todo_visible (stored w) ->
  todo_visible (stored (exec (add_task task) w)).
Proof.
  intros H. unfold exec. rewrite add_task_run.
  destruct (next_id (stored w) <=? Int64_max); [|exact H].
  cbn [snd stored file].
  apply todo_visible_reindex. apply Forall_app. split; [exact H|].
  constructor; [|constructor]. reflexivity.
Qed.

(** X4.  No command hides an open task: if every stored TODO task is
    visible, the same holds of the table stored after any command.  (Prune
    hides DONE tasks only, and a task set back to TODO is made visible.) *)
Theorem open_tasks_stay_visible :
  forall (args : Command) (w : World),
    todo_visible (stored w) ->
    todo_visible (stored (exec (main args) w)).
Proof.
  intros args w H. destruct args; simpl.
  - unfold stored. now rewrite list_tasks_file.
  - rewrite for_each_add. revert w H.
    induction tasks as [|task tasks IH]; intros w H; simpl.
    + exact H.
    + apply IH, todo_visible_add, H.
  - unfold exec. rewrite pin_task_run. cbn [snd stored file].
    revert H. apply todo_visible_map. intros t Ht. exact Ht.
  - unfold exec. rewrite mark_done_run. cbn [snd stored file].
    revert H. apply todo_visible_map. intros t Ht. cbn.
    destruct (is_in (id t) task_ids), (status t) eqn:Hs; cbn;
      try exact Ht; try reflexivity; discriminate.
  - unfold exec. rewrite schedule_task_run.
    destruct (cast_Date date); cbn [snd stored file]; [|exact H].
    revert H. apply todo_visible_map. intros t Ht. exact Ht.
  - unfold exec. rewrite set_deadline_run.
    destruct (cast_Date date); cbn [snd stored file]; [|exact H].
    revert H. apply todo_visible_map. intros t Ht. exact Ht.
  - unfold exec. rewrite prune_done_run. cbn [snd stored file].
    apply todo_visible_reindex. revert H.
    apply todo_visible_map. intros t Ht. cbn.
    destruct (status t); cbn; [discriminate | exact Ht].
  - unfold stored. now rewrite dump_tasks_file.
Qed.

(** ** Renumbering looks at no id *)

Lemma rows_compare_rows (by_cols : list column) (descending : list bool)
    (a a' b b' : Task) :
  ~ In c_id by_cols ->
  drop_id a = drop_id a' -> drop_id b = drop_id b' ->
  rows_compare by_cols descending a b = rows_compare by_cols descending a' b'.
Proof.
  intros Hc Ha Hb.
  rewrite <- (renumbered_compare by_cols descending 0 0 a b Hc).
  rewrite <- (renumbered_compare by_cols descending 0 0 a' b' Hc).
  now rewrite Ha, Hb.
Qed.

Lemma map_cons_eq {A B : Type} (f : A -> B) (a b : A) (l l' : list A) :
  map f (a :: l) = map f (b :: l') -> f a = f b /\ map f l = map f l'.
Proof. simpl. intros H. injection H as Hh Ht. now split. Qed.

Section SortingRows.
Variable leb : Task -> Task -> bool.
Hypothesis leb_rows :
  forall a a' b b',
    drop_id a = drop_id a' -> drop_id b = drop_id b' -> leb a b = leb a' b'.

Lemma insert_sorted_rows (t t' : Task) (rows rows' : list Task) :
  drop_id t = drop_id t' ->
  map drop_id rows = map drop_id rows' ->
  map drop_id (insert_sorted leb t rows)
  = map drop_id (insert_sorted leb t' rows').
Proof.
  intros Ht. revert rows'.
  induction rows as [|r rows IH]; intros [|r' rows'] Hrows;
    try discriminate; simpl.
  - now rewrite Ht.
  - apply map_cons_eq in Hrows as [Hr Hrows].
    rewrite (leb_rows t t' r r' Ht Hr).
    destruct (leb t' r'); simpl.
    + now rewrite Ht, Hr, Hrows.
    + now rewrite Hr, (IH rows' Hrows).
Qed.

Lemma sort_rows_rows (rows rows' : list Task) :
  map drop_id rows = map drop_id rows' ->
  map drop_id (sort_rows leb rows) = map drop_id (sort_rows leb rows').
Proof.
  revert rows'.
  induction rows as [|r rows IH]; intros [|r' rows'] Hrows;
    try discriminate; simpl.
  - reflexivity.
  - apply map_cons_eq in Hrows as [Hr Hrows].
    apply insert_sorted_rows; [exact Hr | apply IH, Hrows].
Qed.
End SortingRows.

Lemma reindex_same_rows (tasks tasks' : list Task) :
  map drop_id tasks = map drop_id tasks' -> reindex tasks = reindex tasks'.
Proof.
  intros H. unfold reindex, df_sort. f_equal.
  apply sort_rows_rows; [|exact H].
  intros a a' b b' Ha Hb. unfold comes_first.
  rewrite (rows_compare_rows _ _ a a' b b'); auto.
  simpl. intuition discriminate.
Qed.

(** X5.  [reindex] reads no id: two tables that agree on every column
    but [id] are renumbered to the same table. *)
Theorem reindex_ignores_ids :
  forall tasks tasks' : list Task,
    map drop_id tasks = map drop_id tasks' ->
    reindex tasks = reindex tasks'.
Proof. exact reindex_same_rows. Qed.

(** ** Adding *)


Lemma add_all_completed (tasks : list string) (w : World) :
  fst (for_each tasks add_task w) = Ok tt ->
  List.length (stored (exec (for_each tasks add_task) w))
  = (List.length (stored w) + List.length tasks)%nat
  /\ (tasks <> [] ->
      ids_dense (stored (exec (for_each tasks add_task) w))).
Proof.
  revert w. induction tasks as [|task tasks IH]; intros w; simpl.
  - intros _. split; [unfold exec; simpl; lia | congruence].
  - unfold exec, bind. rewrite add_task_run.
    destruct (next_id (stored w) <=? Int64_max); [|discriminate].
    intros Hrest. destruct (IH _ Hrest) as [Hlen Hdense].
    unfold exec in Hlen, Hdense. split.
    + rewrite Hlen. cbn [stored file].
      rewrite reindex_length, length_app. simpl. lia.
    + intros _. destruct tasks as [|task' tasks].
      * simpl. apply reindex_dense.
      * apply Hdense. discriminate.
Qed.

(** X7.  When the add flag with one text or more completes, it has stored
    one row more per text, and the ids are dense: 1, ..., N. *)
Theorem add_flag_adds_each :
  forall (tasks : list string) (w : World),
    tasks <> [] ->
    fst (main (cmd_add tasks) w) = Ok tt ->
    List.length (stored (exec (main (cmd_add tasks)) w))
    = (List.length (stored w) + List.length tasks)%nat
    /\ ids_dense (stored (exec (main (cmd_add tasks)) w)).
Proof.
  intros tasks w Hne Hok. simpl in *.
  destruct (add_all_completed tasks w Hok) as [Hlen Hdense].
  split; [exact Hlen | apply Hdense, Hne].
Qed.

(** ** Pruning *)

(** X8.  [prune_done] drops no row and changes, besides the ids, only
    the visibility of the DONE rows: without their ids, the rows stored
    afterwards are the rows stored before, each DONE one hidden.  So
    afterwards every DONE row is hidden. *)
Theorem prune_hides_done_rows :
  forall w : World,
    Permutation
      (map drop_id (stored (exec prune_done w)))
      (map (fun t =>
              drop_id
                (set_is_visible
                   (if Status_eqb (status t) DONE then false
                    else is_visible t) t)) (stored w))
    /\ Forall (fun t => status t = DONE -> is_visible t = false)
              (stored (exec prune_done w)).
Proof.
  intros w. unfold exec. rewrite prune_done_run. cbn [snd stored file].
  split.
  - eapply perm_trans; [apply reindex_rows|].
    rewrite map_map. apply Permutation_refl.
  - apply (Forall_map drop_id
             (fun r => r_status r = DONE -> r_is_visible r = false)).
    eapply Permutation_Forall;
      [apply Permutation_sym, reindex_rows|].
    rewrite map_map. apply Forall_map, Forall_forall.
    intros t _. cbn. now destruct (status t).
Qed.

(** ** Visible rows are numbered first *)

Lemma filter_length_perm {A : Type} (f : A -> bool) (l l' : list A) :
  Permutation l l' ->
  List.length (filter f l) = List.length (filter f l').
Proof.
  induction 1 as [|x l l' _ IH|x y l|l l' l'' _ IH1 _ IH2]; simpl.
  - reflexivity.
  - destruct (f x); simpl; now rewrite IH.
  - destruct (f x), (f y); reflexivity.
  - now rewrite IH1.
Qed.

Lemma StronglySorted_weaken {A : Type} (R R' : A -> A -> Prop) (l : list A) :
  (forall a b, R a b -> R' a b) ->
  StronglySorted R l -> StronglySorted R' l.
Proof.
  intros HR. induction 1 as [|x l _ IH Hall]; constructor.
  - exact IH.
  - eapply Forall_impl; [|exact Hall]. intros b. apply HR.
Qed.

Lemma visible_prefix (rows : list Task) :
  StronglySorted
    (fun a b => is_visible b = true -> is_visible a = true) rows ->
  forall (i : nat) (t : Task),
    nth_error rows i = Some t ->
    (is_visible t = true
     <-> (i < List.length (filter is_visible rows))%nat).
Proof.
  induction 1 as [|x rows _ IH Hall]; intros i t Hi.
  - destruct i; discriminate.
  - simpl. destruct (is_visible x) eqn:Hx.
    + destruct i as [|i]; simpl in Hi.
      * injection Hi as <-. simpl. split; [lia | intros _; exact Hx].
      * simpl. rewrite (IH i t Hi). lia.
    + assert (Hnone : Forall (fun b => is_visible b = false) rows).
      { eapply Forall_impl; [|exact Hall]. intros b Hb.
        cbv beta in Hb. destruct (is_visible b); [|reflexivity].
        symmetry. apply Hb. reflexivity. }
      assert (Hfilter : filter is_visible rows = []).
      { clear -Hnone. induction Hnone as [|b rows Hb _ IH]; simpl.
        - reflexivity.
        - now rewrite Hb. }
      rewrite Hfilter. simpl.
      assert (Ht : is_visible t = false).
      { destruct i as [|i]; simpl in Hi.
        - now injection Hi as <-.
        - rewrite Forall_forall in Hnone.
          apply Hnone. eapply nth_error_In, Hi. }
      rewrite Ht. split; [discriminate | lia].
Qed.

(** X9.  After [reindex] the visible rows carry the ids 1, ..., V and the
    hidden rows the ids above V, where V is the number of visible rows:
    a listing after add or prune shows an unbroken run of ids. *)
Theorem reindex_numbers_visible_first :
  forall (tasks : list Task) (t : Task),
    In t (reindex tasks) ->
    (is_visible t = true
     <-> id t <= Z.of_nat (List.length (filter is_visible tasks))).
Proof.
  intros tasks t Hin.
  apply In_nth_error in Hin as [i Hi].
  apply reindex_nth in Hi as [a [Ha ->]].
  unfold with_id, drop_id. cbn [is_visible id r_is_visible].
  assert (Hcols : Forall (fun c => c <> c_desc)
            [c_is_visible; c_is_pin; c_status; c_scheduled; c_deadline])
    by (repeat constructor; discriminate).
  pose proof (df_sort_sorted _ [true; true; true; false; false] tasks Hcols)
    as Hsorted.
  apply (StronglySorted_weaken _
           (fun a b => is_visible b = true -> is_visible a = true))
    in Hsorted.
  - rewrite (visible_prefix _ Hsorted i a Ha).
    rewrite (filter_length_perm is_visible _ _ (df_sort_perm _ _ tasks)).
    lia.
  - intros x y. unfold comes_first. cbn.
    destruct (is_visible x), (is_visible y); cbn; congruence.
Qed.

(** ** Failing commands store nothing *)

(** X10.  A command that raises leaves the world as it found it: the
    file is written only once the new table is complete, and nothing is
    printed before.  This is so for every call of a function of the
    program; the add flag with several texts calls [add_task] once per
    text, and is left out here. *)
Theorem raising_command_changes_nothing :
  forall (args : Command) (w : World) (e : Exn),
    one_call args ->
    fst (main args w) = Raise e -> main args w = (Raise e, w).
Proof.
  intros args w e Hone. destruct args; simpl in *.
  - rewrite list_tasks_run.
    destruct (rows_to_print regex (stored w)) as [rows|e'].
    + destruct (is_empty rows); [discriminate|].
      destruct (any_dates (map scheduled rows)); cbn; [|congruence].
      destruct (any_dates (map deadline rows)); cbn;
        [discriminate | congruence].
    + cbn. congruence.
  - destruct tasks as [|task [|task' tasks]]; simpl in *; [discriminate| |lia].
    unfold bind. rewrite add_task_run.
    destruct (next_id (stored w) <=? Int64_max); cbn;
      [discriminate | congruence].
  - rewrite pin_task_run. discriminate.
  - rewrite mark_done_run. discriminate.
  - rewrite schedule_task_run.
    destruct (cast_Date date); cbn; [discriminate | congruence].
  - rewrite set_deadline_run.
    destruct (cast_Date date); cbn; [discriminate | congruence].
  - rewrite prune_done_run. discriminate.
  - unfold dump_tasks. rewrite load_bind. discriminate.
Qed.

(** ** A missing task file *)

(** X11.  With no task file, pin, done, schedule, deadline (given a date
    they accept) and prune raise nothing and store an empty table, so the
    file exists afterwards; list without a pattern prints that there are
    no active tasks and stores nothing. *)
Theorem missing_file_is_an_empty_table :
  forall (w : World) (m : Mutation) (task_ids : list Z),
    file w = None ->
    date_accepted m ->
    main (mutate m task_ids) w
    = (Ok tt, mkWorld (Some []) (clock w) (stdout w))
    /\ main cmd_prune w = (Ok tt, mkWorld (Some []) (clock w) (stdout w))
    /\ main (cmd_list None) w
       = (Ok tt,
          mkWorld None (clock w)
                  (stdout w ++ [Text "No active tasks found."])%list).
Proof.
  intros w m task_ids Hfile Hdate.
  assert (Hs : stored w = []) by (unfold stored; now rewrite Hfile).
  split; [|split].
  - destruct m; simpl in *.
    + rewrite pin_task_run, Hs. reflexivity.
    + rewrite mark_done_run, Hs. reflexivity.
    + rewrite schedule_task_run, Hs.
      destruct (cast_Date date); [reflexivity | congruence].
    + rewrite set_deadline_run, Hs.
      destruct (cast_Date date); [reflexivity | congruence].
  - simpl. rewrite prune_done_run, Hs. reflexivity.
  - simpl. rewrite list_tasks_run, Hs. cbn. now rewrite Hfile.
Qed.

(** ** Dates: the later call wins, the two columns do not interfere *)

(** X12.  Scheduling the same ids twice leaves the date of the second
    call, whatever the first call was given; the same for deadlines. *)
Theorem later_date_wins :
  forall (date1 date2 : string) (task_ids : list Z) (w : World),
    cast_Date date2 <> None ->
    stored (exec (schedule_task date2 task_ids)
                 (exec (schedule_task date1 task_ids) w))
    = stored (exec (schedule_task date2 task_ids) w)
    /\ stored (exec (set_deadline date2 task_ids)
                    (exec (set_deadline date1 task_ids) w))
       = stored (exec (set_deadline date2 task_ids) w).
Proof.
  intros date1 date2 task_ids w Hd. unfold exec.
  rewrite !schedule_task_run, !set_deadline_run.
  destruct (cast_Date date2) as [d2|]; [|congruence].
  destruct (cast_Date date1) as [d1|]; cbn [snd stored file];
    [|split; reflexivity].
  rewrite !map_map. split; apply map_ext; intros t; cbn;
    now destruct (is_in (id t) task_ids).
Qed.

(** X13.  Scheduling and setting a deadline can be done in either order:
    the stored table is the same, whatever the ids and the dates, also
    when one of the dates is refused. *)
Theorem schedule_and_deadline_commute :
  forall (date1 date2 : string) (ids1 ids2 : list Z) (w : World),
    stored (exec (set_deadline date2 ids2)
                 (exec (schedule_task date1 ids1) w))
    = stored (exec (schedule_task date1 ids1)
                   (exec (set_deadline date2 ids2) w)).
Proof.
  intros date1 date2 ids1 ids2 w. unfold exec.
  rewrite !schedule_task_run, !set_deadline_run.
  destruct (cast_Date date1) as [d1|], (cast_Date date2) as [d2|];
    cbn [snd stored file]; try reflexivity.
  rewrite !map_map. apply map_ext. intros t. reflexivity.
Qed.

(** ** What a listing shows *)

Lemma rows_to_print_visible (regex : option string) (tasks kept : list Task) :
  rows_to_print regex tasks = Ok kept ->
  forall t, In t kept -> In t tasks /\ is_visible t = true.
Proof.
  unfold rows_to_print. intros H t Ht.
  destruct regex as [[|c regex]|].
  - injection H as <-. now apply filter_In in Ht.
  - destruct (regex_accepted _); [|discriminate].
    injection H as <-. apply filter_In in Ht as [Ht _].
    now apply filter_In in Ht.
  - injection H as <-. now apply filter_In in Ht.
Qed.

Lemma any_buffered_all_values (buffer : nat) :
  (0 < buffer)%nat ->
  forall (rounds : nat) (cells : list (option Date)),
    (List.length cells <= rounds)%nat ->
    forallb has_python_value cells = true ->
    any_buffered buffer rounds cells = Ok (existsb not_null cells).
Proof.
  intros Hbuffer. induction rounds as [|rounds IH]; intros cells Hlen Hall.
  - destruct cells; [reflexivity | simpl in Hlen; lia].
  - destruct cells as [|c cells]; [reflexivity|].
    cbn [any_buffered].
    assert (Hf : forallb has_python_value (firstn buffer (c :: cells))
                 && forallb has_python_value (skipn buffer (c :: cells))
                 = true)
      by (rewrite <- forallb_app, firstn_skipn; exact Hall).
    apply andb_true_iff in Hf as [Hfirst Hrest]. rewrite Hfirst.
    assert (He : existsb not_null (c :: cells)
                 = existsb not_null (firstn buffer (c :: cells))
                   || existsb not_null (skipn buffer (c :: cells)))
      by (rewrite <- existsb_app, firstn_skipn; reflexivity).
    rewrite He.
    destruct (existsb not_null (firstn buffer (c :: cells)));
      [reflexivity|].
    apply IH; [|exact Hrest].
    rewrite length_skipn. cbn [List.length] in *. lia.
Qed.

Lemma any_dates_all_values (cells : list (option Date)) :
  forallb has_python_value cells = true ->
  any_dates cells = Ok (existsb not_null cells).
Proof.
  intros H. unfold any_dates. apply any_buffered_all_values.
  - unfold buffer_size. lia.
  - lia.
  - exact H.
Qed.

Lemma any_dates_of_column (get : Task -> option Date) (kept : list Task) :
  Forall (fun t => has_python_value (get t) = true) kept ->
  any_dates (map get kept) = Ok (existsb (fun t => not_null (get t)) kept).
Proof.
  intros H. rewrite any_dates_all_values.
  - f_equal. induction kept as [|t kept IH]; simpl; [reflexivity|].
    inversion H; subst. now rewrite IH.
  - induction H as [|t kept Ht _ IH]; simpl; [reflexivity|].
    now rewrite Ht, IH.
Qed.

Lemma list_tasks_table (regex : option string) (w : World)
    (kept : list Task) :
  rows_to_print regex (stored w) = Ok kept ->
  kept <> [] ->
  dates_have_python_values kept ->
  list_tasks regex w
  = (Ok tt,
     mkWorld (file w) (clock w)
       (stdout w
        ++ [Table
              (((if existsb is_pin kept
                 then ["pin"; "id"; "status"; "desc"]
                 else ["id"; "status"; "desc"])
                ++ (if existsb (fun t => not_null (scheduled t)) kept
                    then ["scheduled"] else []))
               ++ (if existsb (fun t => not_null (deadline t)) kept
                   then ["deadline"] else []))
              (df_sort
                 (if existsb is_pin kept
                  then [c_is_pin; c_status; c_scheduled; c_deadline]
                  else [c_status; c_scheduled; c_deadline])
                 (if existsb is_pin kept
                  then [true; true; false; false]
                  else [true; false; false]) kept)])%list).
Proof.
  intros Hkept Hne Hdates. rewrite list_tasks_run, Hkept.
  destruct kept as [|t kept]; [congruence|]. cbn [is_empty].
  rewrite (any_dates_of_column scheduled), (any_dates_of_column deadline).
  - reflexivity.
  - eapply Forall_impl; [|exact Hdates]. now intros x [_ H].
  - eapply Forall_impl; [|exact Hdates]. now intros x [H _].
Qed.

Lemma df_sort_no_inversion (by_cols : list column) (descending : list bool)
    (tasks : list Task) :
  Forall (fun c => c <> c_desc) by_cols ->
  forall (i j : nat) (a b : Task),
    (i < j)%nat ->
    nth_error (df_sort by_cols descending tasks) i = Some a ->
    nth_error (df_sort by_cols descending tasks) j = Some b ->
    rows_compare by_cols descending b a <> Lt.
Proof.
  intros Hcols i j a b Hij Ha Hb Hlt.
  pose proof (StronglySorted_nth _ _
                (df_sort_sorted by_cols descending tasks Hcols)
                i j a b Hij Ha Hb) as Hle.
  unfold comes_first in Hle.
  rewrite (orderly_sym _ (orderly_rows _ Hcols _) b a), Hlt in Hle.
  discriminate.
Qed.

Lemma listed_before_iff (a b : Task) :
  listed_before a b
  <-> rows_compare [c_is_pin; c_status; c_scheduled; c_deadline]
                   [true; true; false; false] a b = Lt.
Proof.
  cbn [rows_compare column_compare directed].
  split.
  - intros [Hp1 Hp2 | Hp Hs1 Hs2 | Hp Hs Hd | Hp Hs Hd Hl].
    + now rewrite Hp1, Hp2.
    + rewrite Hp, Hs1, Hs2. now destruct (is_pin b).
    + rewrite Hp, Hs. apply nullable_Lt in Hd. rewrite Hd.
      now destruct (is_pin b), (status b).
    + rewrite Hp, Hs. apply nullable_Lt in Hl. rewrite Hl.
      assert (He : nullable_compare Date_compare false
                     (scheduled a) (scheduled b) = Eq)
        by now apply nullable_Eq.
      rewrite He. now destruct (is_pin b), (status b).
  - destruct (is_pin a) eqn:Hpa, (is_pin b) eqn:Hpb;
      destruct (status a) eqn:Hsa, (status b) eqn:Hsb;
      simpl; intros H; try discriminate;
      try (apply listed_by_pin; congruence);
      try (apply listed_by_status; congruence);
      (destruct (nullable_compare Date_compare false
                   (scheduled a) (scheduled b)) eqn:Hd;
       simpl in H; try discriminate;
       [ destruct (nullable_compare Date_compare false
                     (deadline a) (deadline b)) eqn:Hl;
         simpl in H; try discriminate;
         apply listed_by_deadline; try congruence;
         [ now apply nullable_Eq | now apply nullable_Lt ]
       | apply listed_by_scheduled; try congruence;
         now apply nullable_Lt ]).
Qed.

Lemma unpinned_compare (a b : Task) :
  is_pin a = is_pin b ->
  rows_compare [c_is_pin; c_status; c_scheduled; c_deadline]
               [true; true; false; false] a b
  = rows_compare [c_status; c_scheduled; c_deadline]
                 [true; false; false] a b.
Proof.
  intros H. cbn [rows_compare column_compare directed]. rewrite H.
  now destruct (is_pin b).
Qed.

(** X14.  When list has rows to show and their dates have Python
    values, it prints one table and stores nothing.  The table holds
    exactly the rows kept, each a visible stored row, in this order whether
    or not a row is pinned: pinned rows first, then TODO before DONE, then
    by scheduled date and by deadline, a missing date before every date. *)
Theorem listing_shows_kept_rows_in_order :
  forall (regex : option string) (w : World) (kept : list Task),
    rows_to_print regex (stored w) = Ok kept ->
    kept <> [] ->
    dates_have_python_values kept ->
    exists (cols : list string) (rows : list Task),
      list_tasks regex w
      = (Ok tt,
         mkWorld (file w) (clock w) (stdout w ++ [Table cols rows])%list)
      /\ Permutation rows kept
      /\ (forall t, In t rows -> In t (stored w) /\ is_visible t = true)
      /\ (forall (i j : nat) (a b : Task),
             (i < j)%nat ->
             nth_error rows i = Some a -> nth_error rows j = Some b ->
             ~ listed_before b a).
Proof.
  intros regex w kept Hkept Hne Hdates.
  do 2 eexists.
  split; [apply (list_tasks_table regex w kept Hkept Hne Hdates)|].
  split; [apply df_sort_perm|]. split.
  - intros t Ht. apply (rows_to_print_visible regex _ kept Hkept).
    eapply Permutation_in; [apply df_sort_perm | exact Ht].
  - intros i j a b Hij Ha Hb Hbefore.
    apply listed_before_iff in Hbefore.
    destruct (existsb is_pin kept) eqn:Hpin.
    + revert Hbefore. apply (df_sort_no_inversion _ _ kept) with i j; auto.
      repeat constructor; discriminate.
    + assert (Hno : forall t, In t kept -> is_pin t = false).
      { intros t Ht. destruct (is_pin t) eqn:Hp; [|reflexivity].
        assert (Hex : existsb is_pin kept = true)
          by (apply existsb_exists; now exists t).
        congruence. }
      assert (Hina : In a kept).
      { eapply Permutation_in; [apply df_sort_perm|].
        eapply nth_error_In, Ha. }
      assert (Hinb : In b kept).
      { eapply Permutation_in; [apply df_sort_perm|].
        eapply nth_error_In, Hb. }
      rewrite unpinned_compare in Hbefore
        by (rewrite (Hno a Hina), (Hno b Hinb); reflexivity).
      revert Hbefore. apply (df_sort_no_inversion _ _ kept) with i j; auto.
      repeat constructor; discriminate.
Qed.

Lemma a_date_in_kept (get : Task -> option Date) (kept : list Task) :
  existsb (fun t => not_null (get t)) kept = true
  <-> exists t, In t kept /\ get t <> None.
Proof.
  rewrite existsb_exists. split; intros [t [Hin Ht]]; exists t;
    (split; [exact Hin|]); destruct (get t); simpl in *; congruence.
Qed.

(** X15.  The columns of the table list prints when the dates of the
    kept rows have Python values are, in this order: the pin marker if a
    kept row is pinned; id, status and desc; scheduled if a kept row has a
    scheduled date; deadline if a kept row has a deadline.  There is no
    other column, and rows that are hidden or filtered out do not count. *)
Theorem listing_columns :
  forall (regex : option string) (w : World) (kept : list Task),
    rows_to_print regex (stored w) = Ok kept ->
    kept <> [] ->
    dates_have_python_values kept ->
    exists (pinned with_scheduled with_deadline : bool) (rows : list Task),
      list_tasks regex w
      = (Ok tt,
         mkWorld (file w) (clock w)
           (stdout w
            ++ [Table
                  ((if pinned then ["pin"] else [])
                   ++ ["id"; "status"; "desc"]
                   ++ (if with_scheduled then ["scheduled"] else [])
                   ++ (if with_deadline then ["deadline"] else []))
                  rows])%list)
      /\ (pinned = true <-> exists t, In t kept /\ is_pin t = true)
      /\ (with_scheduled = true
          <-> exists t, In t kept /\ scheduled t <> None)
      /\ (with_deadline = true
          <-> exists t, In t kept /\ deadline t <> None).
Proof.
  intros regex w kept Hkept Hne Hdates.
  exists (existsb is_pin kept),
         (existsb (fun t => not_null (scheduled t)) kept),
         (existsb (fun t => not_null (deadline t)) kept),
         (df_sort
            (if existsb is_pin kept
             then [c_is_pin; c_status; c_scheduled; c_deadline]
             else [c_status; c_scheduled; c_deadline])
            (if existsb is_pin kept
             then [true; true; false; false]
             else [true; false; false]) kept).
  split.
  - rewrite (list_tasks_table regex w kept Hkept Hne Hdates).
    destruct (existsb is_pin kept);
      destruct (existsb (fun t => not_null (scheduled t)) kept);
      destruct (existsb (fun t => not_null (deadline t)) kept);
      reflexivity.
  - rewrite <- !a_date_in_kept, <- existsb_exists. tauto.
Qed.

(** ** What the four mutations write on the rows they are given *)

(** X16.  On a row whose id is among the given ids: pin inverts the pin
    flag; done turns TODO into DONE with today as done date, and DONE
    into TODO with no done date and visible; schedule and deadline, given
    a date they accept, store that date.  Every row with a given id is
    written, not only the first. *)
Theorem listed_row_is_written :
  forall (m : Mutation) (task_ids : list Z) (w : World) (k : nat) (t : Task),
    nth_error (stored w) k = Some t ->
    is_in (id t) task_ids = true ->
    date_accepted m ->
    exists t' : Task,
      nth_error (stored (exec (main (mutate m task_ids)) w)) k = Some t'
      /\ match m with
         | m_pin => is_pin t' = negb (is_pin t)
         | m_done =>
             match status t with
             | TODO =>
                 status t' = DONE
                 /\ done_date t' = Some (on_date (clock w))
                 /\ is_visible t' = is_visible t
             | DONE =>
                 status t' = TODO /\ done_date t' = None
                 /\ is_visible t' = true
             end
         | m_schedule date => scheduled t' = cast_Date date
         | m_deadline date => deadline t' = cast_Date date
         end.
Proof.
  intros m task_ids w k t Hk Hin Hdate. unfold exec. destruct m; simpl in *.
  - rewrite pin_task_run. cbn [snd stored file].
    rewrite nth_error_map, Hk. cbn [option_map].
    eexists. split; [reflexivity|]. cbn. rewrite Hin.
    now destruct (is_pin t).
  - rewrite mark_done_run. cbn [snd stored file].
    rewrite nth_error_map, Hk. cbn [option_map].
    eexists. split; [reflexivity|]. cbn. rewrite Hin.
    now destruct (status t).
  - rewrite schedule_task_run.
    destruct (cast_Date date) as [d|]; [|congruence].
    cbn [snd stored file]. rewrite nth_error_map, Hk. cbn [option_map].
    eexists. split; [reflexivity|]. cbn. now rewrite Hin.
  - rewrite set_deadline_run.
    destruct (cast_Date date) as [d|]; [|congruence].
    cbn [snd stored file]. rewrite nth_error_map, Hk. cbn [option_map].
    eexists. split; [reflexivity|]. cbn. now rewrite Hin.
Qed.

End Program.

(** * The properties on the sample tables *)

(** C6, as the specification words it, fails on the code.  Given m.lk,
    list keeps the task Buy milk, in whose text m.lk does not occur: the
    dot of the pattern stands for the letter i.  This is so whatever the
    library. *)
Lemma list_reads_text_as_pattern :
  (forall lib : Library,
      rows_to_print lib (Some "m.lk") (stored milk_world) = Ok [buy_milk])
  /\ is_visible buy_milk = true
  /\ (forall lib : Library,
         ~ Substring (lower lib "m.lk")
                     (to_lowercase lib (row_text buy_milk))).
Proof.
  split; [intros lib; reflexivity|]. split; [reflexivity|].
  intros lib. rewrite <- occurs_in_Substring. now vm_compute.
Qed.

Lemma ids_dense_after_add_and_prune_witness :
  fst (add_task "x" milk_world) = Ok tt
  /\ ids_dense (stored (exec (add_task "x") milk_world))
  /\ List.length (stored (exec (add_task "x") milk_world))
     = S (List.length (stored milk_world)).
Proof.
  assert (H : fst (add_task "x" milk_world) = Ok tt) by reflexivity.
  split; [exact H|].
  apply (proj1 (ids_dense_after_add_and_prune milk_world "x")). exact H.
Defined.

Lemma done_date_consistency_kept_witness :
  done_date_consistent (stored finished_world)
  /\ done_date_consistent
       (stored (exec (main sample_library (cmd_done [1; 2])) finished_world)).
Proof.
  assert (H : done_date_consistent (stored finished_world)).
  { repeat constructor; simpl; congruence. }
  split; [exact H|].
  apply (done_date_consistency_kept sample_library (cmd_done [1; 2])
                                    finished_world H).
Defined.

Lemma toggle_done_twice_witness :
  nth_error (stored finished_world) 1 = Some open_task
  /\ exists t2 : Task,
      nth_error
        (stored (exec (mark_done [id open_task])
                      (set_clock (at_noon midsummer)
                         (exec (mark_done [id open_task]) finished_world))))
        1 = Some t2
      /\ status t2 = status open_task
      /\ (is_visible open_task = true -> is_visible t2 = is_visible open_task)
      /\ (status open_task = TODO -> done_date t2 = None)
      /\ (status open_task = DONE ->
          done_date t2 = Some (on_date (at_noon midsummer))).
Proof.
  split; [reflexivity|].
  apply (toggle_done_twice finished_world (at_noon midsummer) 1 open_task).
  reflexivity.
Defined.

Lemma mark_done_visibility_witness :
  nth_error (stored finished_world) 0 = Some finished
  /\ exists t' : Task,
      nth_error (stored (exec (mark_done [2]) finished_world)) 0 = Some t'
      /\ (status t' = TODO -> is_visible t' = true)
      /\ (status t' = DONE -> is_visible t' = is_visible finished)
      /\ (is_in (id finished) [2] = false ->
          status t' = status finished
          /\ (status finished = DONE \/ is_visible finished = true ->
              is_visible t' = is_visible finished)).
Proof.
  split; [reflexivity|].
  apply (mark_done_visibility finished_world [2] 0 finished).
  reflexivity.
Defined.

Lemma list_keeps_rows_matching_plain_text_witness :
  plain_text (lower sample_library "bank") = true
  /\ rows_to_print sample_library (Some "bank") (stored milk_world)
     = Ok (rows_matching_text sample_library "bank" (stored milk_world))
  /\ rows_matching_text sample_library "bank" (stored milk_world)
     = [call_bank].
Proof.
  assert (H : plain_text (lower sample_library "bank") = true)
    by reflexivity.
  split; [exact H|]. split; [|reflexivity].
  apply (list_keeps_rows_matching_plain_text sample_library "bank"
                                             milk_world H).
Defined.

Lemma add_to_empty_store_witness :
  add_task "x" (mkWorld None (at_noon midsummer) [])
  = (Ok tt,
     mkWorld
       (Some [mkTask 1 TODO "x" None None (at_noon midsummer)
                     true false None])
       (at_noon midsummer) []).
Proof.
  apply (add_to_empty_store (mkWorld None (at_noon midsummer) []) "x").
  left. reflexivity.
Defined.

Lemma unknown_id_is_ignored_witness :
  ~ In 7 (map id (stored finished_world))
  /\ main sample_library
          (mutate (m_schedule "2024-06-21") ([1] ++ 7 :: [2])%list)
          finished_world
     = main sample_library
            (mutate (m_schedule "2024-06-21") ([1] ++ [2])%list)
            finished_world
  /\ (date_accepted sample_library (m_schedule "2024-06-21") ->
      fst (main sample_library
                (mutate (m_schedule "2024-06-21") ([1] ++ 7 :: [2])%list)
                finished_world) = Ok tt).
Proof.
  assert (H : ~ In 7 (map id (stored finished_world))).
  { simpl. intros [H | [H | []]]; discriminate. }
  split; [exact H|].
  apply (unknown_id_is_ignored sample_library (m_schedule "2024-06-21")
                               [1] [2] 7 finished_world H).
Defined.

Lemma unlisted_row_is_kept_witness :
  nth_error (stored finished_world) 1 = Some open_task
  /\ nth_error
       (stored (exec (main sample_library (mutate m_done [1]))
                     finished_world)) 1
     = Some open_task.
Proof.
  split; [reflexivity|].
  apply (unlisted_row_is_kept sample_library m_done [1] finished_world 1
                              open_task).
  - reflexivity.
  - reflexivity.
  - intros _. right. reflexivity.
Defined.

Lemma open_tasks_stay_visible_witness :
  todo_visible (stored finished_world)
  /\ todo_visible
       (stored (exec (main sample_library cmd_prune) finished_world)).
Proof.
  assert (H : todo_visible (stored finished_world)).
  { repeat constructor. }
  split; [exact H|].
  apply (open_tasks_stay_visible sample_library cmd_prune finished_world H).
Defined.

Lemma reindex_ignores_ids_witness :
  reindex [finished; open_task]
  = reindex [with_id 40 (drop_id finished); with_id 7 (drop_id open_task)].
Proof.
  apply (reindex_ignores_ids
           [finished; open_task]
           [with_id 40 (drop_id finished); with_id 7 (drop_id open_task)]).
  reflexivity.
Defined.


Lemma add_flag_adds_each_witness :
  fst (main sample_library (cmd_add ["a"; "b"]) milk_world) = Ok tt
  /\ List.length
       (stored (exec (main sample_library (cmd_add ["a"; "b"])) milk_world))
     = (List.length (stored milk_world) + List.length ["a"; "b"])%nat
  /\ ids_dense
       (stored (exec (main sample_library (cmd_add ["a"; "b"])) milk_world)).
Proof.
  assert (H : fst (main sample_library (cmd_add ["a"; "b"]) milk_world)
              = Ok tt) by reflexivity.
  split; [exact H|].
  apply (add_flag_adds_each sample_library ["a"; "b"] milk_world).
  - discriminate.
  - exact H.
Defined.

Lemma reindex_numbers_visible_first_witness :
  In (with_id 1 (drop_id buy_milk)) (reindex [hidden_open; buy_milk])
  /\ (is_visible (with_id 1 (drop_id buy_milk)) = true
      <-> id (with_id 1 (drop_id buy_milk))
          <= Z.of_nat
               (List.length (filter is_visible [hidden_open; buy_milk]))).
Proof.
  assert (H : In (with_id 1 (drop_id buy_milk))
                 (reindex [hidden_open; buy_milk])).
  { left. reflexivity. }
  split; [exact H|].
  apply (reindex_numbers_visible_first
           [hidden_open; buy_milk] (with_id 1 (drop_id buy_milk)) H).
Defined.

Lemma raising_command_changes_nothing_witness :
  fst (main sample_library (cmd_schedule "tomorrow" [1]) milk_world)
  = Raise ComputeError
  /\ main sample_library (cmd_schedule "tomorrow" [1]) milk_world
     = (Raise ComputeError, milk_world).
Proof.
  assert (H : fst (main sample_library (cmd_schedule "tomorrow" [1])
                        milk_world) = Raise ComputeError) by reflexivity.
  split; [exact H|].
  apply (raising_command_changes_nothing
           sample_library (cmd_schedule "tomorrow" [1]) milk_world
           ComputeError).
  - exact I.
  - exact H.
Defined.

Lemma missing_file_is_an_empty_table_witness :
  main sample_library (mutate m_pin [3])
       (mkWorld None (at_noon midsummer) [])
  = (Ok tt, mkWorld (Some []) (at_noon midsummer) [])
  /\ main sample_library cmd_prune (mkWorld None (at_noon midsummer) [])
     = (Ok tt, mkWorld (Some []) (at_noon midsummer) [])
  /\ main sample_library (cmd_list None)
          (mkWorld None (at_noon midsummer) [])
     = (Ok tt,
        mkWorld None (at_noon midsummer)
                ([] ++ [Text "No active tasks found."])%list).
Proof.
  apply (missing_file_is_an_empty_table
           sample_library (mkWorld None (at_noon midsummer) []) m_pin [3]).
  - reflexivity.
  - exact I.
Defined.

Lemma later_date_wins_witness :
  stored (exec (schedule_task sample_library "2024-06-21" [1])
               (exec (schedule_task sample_library "2024-01-01" [1])
                     milk_world))
  = stored (exec (schedule_task sample_library "2024-06-21" [1]) milk_world)
  /\ stored (exec (set_deadline sample_library "2024-06-21" [1])
                  (exec (set_deadline sample_library "2024-01-01" [1])
                        milk_world))
     = stored (exec (set_deadline sample_library "2024-06-21" [1])
                    milk_world).
Proof.
  apply (later_date_wins sample_library "2024-01-01" "2024-06-21" [1]
                         milk_world).
  discriminate.
Defined.

Lemma listing_shows_kept_rows_in_order_witness :
  exists (cols : list string) (rows : list Task),
    list_tasks sample_library None finished_world
    = (Ok tt,
       mkWorld (file finished_world) (clock finished_world)
               (stdout finished_world ++ [Table cols rows])%list)
    /\ Permutation rows [finished; open_task]
    /\ (forall t,
           In t rows -> In t (stored finished_world) /\ is_visible t = true)
    /\ (forall (i j : nat) (a b : Task),
           (i < j)%nat ->
           nth_error rows i = Some a -> nth_error rows j = Some b ->
           ~ listed_before b a).
Proof.
  apply (listing_shows_kept_rows_in_order
           sample_library None finished_world [finished; open_task]).
  - reflexivity.
  - discriminate.
  - repeat constructor.
Defined.

Lemma listing_columns_witness :
  exists (pinned with_scheduled with_deadline : bool) (rows : list Task),
    list_tasks sample_library None finished_world
    = (Ok tt,
       mkWorld (file finished_world) (clock finished_world)
         (stdout finished_world
          ++ [Table
                ((if pinned then ["pin"] else [])
                 ++ ["id"; "status"; "desc"]
                 ++ (if with_scheduled then ["scheduled"] else [])
                 ++ (if with_deadline then ["deadline"] else []))
                rows])%list)
    /\ (pinned = true
        <-> exists t, In t [finished; open_task] /\ is_pin t = true)
    /\ (with_scheduled = true
        <-> exists t, In t [finished; open_task] /\ scheduled t <> None)
    /\ (with_deadline = true
        <-> exists t, In t [finished; open_task] /\ deadline t <> None).
Proof.
  apply (listing_columns sample_library None finished_world
                         [finished; open_task]).
  - reflexivity.
  - discriminate.
  - repeat constructor.
Defined.

Lemma listed_row_is_written_witness :
  exists t' : Task,
    nth_error
      (stored (exec (main sample_library (mutate m_done [1; 2]))
                    finished_world)) 0
    = Some t'
    /\ status t' = TODO /\ done_date t' = None /\ is_visible t' = true.
Proof.
  apply (listed_row_is_written sample_library m_done [1; 2] finished_world
                               0 finished).
  - reflexivity.
  - reflexivity.
  - exact I.
Defined.
